(** * Quiz application: question parsing and answer grading

    A shallow embedding of the data model, the graders, the table parser and
    the score computation of [src/app.py], with the properties of the
    specification stated over it.

    Modelling decisions.
    - A Python [str] is a [string]: a sequence of 8-bit characters read as
      UTF-8 text of which only the ASCII characters are interpreted.
      [strip] and [lower] act on ASCII whitespace and ASCII letters; every
      byte above 127 is carried unchanged (it is no whitespace and has no
      case).
    - [str.isdigit], [int] and [float] are the Python runtime's and are
      parameters of the parser (record [Runtime]): [isdigit] holds of digit
      characters that [int] rejects, and [int] rejects a literal longer
      than its digit limit.
    - A Python [float] is an exact rational of [Q]; [len(u) / len(c)] is the
      quotient of two integers and raises [ZeroDivisionError] on a zero
      divisor.
    - A Python [set] of strings is a [gset string]; a [dict] is an
      association list in insertion order (module [PyDict]).
    - A raised exception is the [Raise] case of [result]. *)

From Stdlib Require Import QArith Ascii String DecimalString DecimalNat.
From stdpp Require Import gmap strings list.

Local Open Scope string_scope.

(** ** Exceptions *)

Inductive exn : Type :=
| KeyError (key : string)
| ValueError_float (arg : string)
| ValueError_int (arg : string)
| ValueError_columns (msg : string)
| ZeroDivisionError.

Inductive result (A : Type) : Type :=
| Ok (a : A)
| Raise (e : exn).

Arguments Ok {A} a.
Arguments Raise {A} e.

Definition bind {A B : Type} (r : result A) (k : A → result B) : result B :=
  match r with
  | Ok a => k a
  | Raise e => Raise e
  end.

Notation "x ← r ;;; k" := (bind r (λ x, k))
  (at level 20, r at level 100, k at level 200, right associativity,
   format "'[' x  ←  r  ;;; '/' k ']'").

(** [returns r q]: the call returned (it did not raise) and its value is the
    rational [q]. *)
Definition returns (r : result Q) (q : Q) : Prop :=
  ∃ s, r = Ok s ∧ (s == q)%Q.

(** ** Python string operations, on ASCII *)

Module PyStr.

(** [str.isspace] on one ASCII character: TAB, LF, VT, FF, CR, the four
    separators FS, GS, RS, US and the space. *)
Definition is_space (c : ascii) : bool :=
  let n := nat_of_ascii c in
  ((9 <=? n) && (n <=? 13) || (28 <=? n) && (n <=? 32))%nat.

Definition is_digit (c : ascii) : bool :=
  let n := nat_of_ascii c in ((48 <=? n) && (n <=? 57))%nat.

Definition lower_char (c : ascii) : ascii :=
  let n := nat_of_ascii c in
  if ((65 <=? n) && (n <=? 90))%nat then ascii_of_nat (n + 32) else c.

Fixpoint lower (s : string) : string :=
  match s with
  | "" => ""
  | String c s' => String (lower_char c) (lower s')
  end.

Fixpoint lstrip (s : string) : string :=
  match s with
  | "" => ""
  | String c s' => if is_space c then lstrip s' else s
  end.

Fixpoint rstrip (s : string) : string :=
  match s with
  | "" => ""
  | String c s' =>
      match rstrip s' with
      | "" => if is_space c then "" else String c ""
      | r => String c r
      end
  end.

Definition strip (s : string) : string := rstrip (lstrip s).

(** [s.split(sep)] for a one-character separator: never empty,
    [''.split(sep) = ['']]. *)
Fixpoint split (sep : ascii) (s : string) : list string :=
  match s with
  | "" => [""]
  | String c s' =>
      if decide (c = sep) then "" :: split sep s'
      else match split sep s' with
           | [] => [String c ""]
           | w :: ws => String c w :: ws
           end
  end.

(** [s.replace(c, '')]. *)
Fixpoint remove_char (x : ascii) (s : string) : string :=
  match s with
  | "" => ""
  | String c s' =>
      if decide (c = x) then remove_char x s' else String c (remove_char x s')
  end.

Fixpoint all_digits (s : string) : bool :=
  match s with
  | "" => true
  | String c s' => is_digit c && all_digits s'
  end.

(** [s.isdigit()] on a text of ASCII characters: false on the empty
    string. *)
Definition isdigit (s : string) : bool :=
  match s with
  | "" => false
  | _ => all_digits s
  end.

(** [sep.join(l)]. *)
Fixpoint join (sep : string) (l : list string) : string :=
  match l with
  | [] => ""
  | [x] => x
  | x :: l' => x +:+ sep +:+ join sep l'
  end.

(** The value of a string of ASCII digits, read in decimal from [acc]. *)
Fixpoint digits_value (acc : Z) (s : string) : Z :=
  match s with
  | "" => acc
  | String c s' => digits_value (10 * acc + (Z.of_nat (nat_of_ascii c) - 48))%Z s'
  end.

(** The characters of a string, as Python iterates over it. *)
Fixpoint chars (s : string) : list ascii :=
  match s with
  | "" => []
  | String c s' => c :: chars s'
  end.

End PyStr.

(** [a / b] on two integers. *)
Definition truediv (a b : Z) : result Q :=
  if decide (b = 0%Z) then Raise ZeroDivisionError
  else Ok (inject_Z a / inject_Z b)%Q.

(** ** Data model and grading (app.py, lines 26-47) *)

(** The dataclass [Question]. Its [qtype] field tags which shape [correct]
    and [options] have; the two constructors are the two calls that build a
    question (lines 66 and 68): [Question(prompt, "mc", corr_list, opts,
    weight)] and [Question(prompt, "open", corr, None, weight)]. *)
Inductive Question : Type :=
| Question_mc (prompt : string) (correct : list string) (options : list string)
    (weight : Q)
| Question_open (prompt : string) (correct : string) (weight : Q).

Definition prompt (q : Question) : string :=
  match q with
  | Question_mc p _ _ _ | Question_open p _ _ => p
  end.

Definition weight (q : Question) : Q :=
  match q with
  | Question_mc _ _ _ w | Question_open _ _ w => w
  end.

Definition qtype (q : Question) : string :=
  match q with
  | Question_mc _ _ _ _ => "mc"
  | Question_open _ _ _ => "open"
  end.

(** [{a.strip().lower() for a in ans.split("|") if a}] (line 38): the test
    [if a] is made on the segment as split, before it is stripped. *)
Definition user_set (ans : string) : gset string :=
  list_to_set
    ((λ a, PyStr.lower (PyStr.strip a))
       <$> filter (λ a, a ≠ "") (PyStr.split "|"%char ans)).

(** [{c.strip().lower() for c in corr}] (line 39). *)
Definition correct_set (corr : list string) : gset string :=
  list_to_set ((λ c, PyStr.lower (PyStr.strip c)) <$> corr).

Definition mc_grader (ans : string) (corr : list string) : result Q :=
  if decide (ans = "") then Ok 0%Q
  else
    let u := user_set ans in
    let c := correct_set corr in
    if decide (u ∖ c ≠ ∅) then Ok 0%Q
    else if decide (c ≠ ∅)
         then truediv (Z.of_nat (size u)) (Z.of_nat (size c))
         else Ok 0%Q.

Definition open_grader (ans : string) (corr : string) : result Q :=
  if decide (PyStr.lower (PyStr.strip ans) = PyStr.lower (PyStr.strip corr))
  then Ok 1%Q else Ok 0%Q.

(** ** Score computation (app.py, lines 156-159 and 99-101) *)

(** A Python [dict] with string keys: the items in insertion order. Setting a
    key that is present replaces its value where it stands. *)
Module PyDict.

Fixpoint set {V : Type} (d : list (string * V)) (k : string) (v : V)
  : list (string * V) :=
  match d with
  | [] => [(k, v)]
  | (k', v') :: d' =>
      if decide (k' = k) then (k, v) :: d' else (k', v') :: set d' k v
  end.

Fixpoint get {V : Type} (d : list (string * V)) (k : string) : option V :=
  match d with
  | [] => None
  | (k', v') :: d' => if decide (k' = k) then Some v' else get d' k
  end.

(** [d[k]]. *)
Definition getitem {V : Type} (d : list (string * V)) (k : string) : result V :=
  match get d k with
  | Some v => Ok v
  | None => Raise (KeyError k)
  end.

Definition keys {V : Type} (d : list (string * V)) : list string := d.*1.

Definition values {V : Type} (d : list (string * V)) : list V := d.*2.

End PyDict.

(** The form (lines 147-153). The widget of question [i] holds a selection of
    options for a multiple-choice question and a text otherwise; the answer
    stored under the prompt is the selection joined by ['|'], or the text. *)
Definition widget_answer (multiselect : nat → list string)
    (text_input : nat → string) (i : nat) (q : Question) : string :=
  match q with
  | Question_mc _ _ _ _ => PyStr.join "|" (multiselect i)
  | Question_open _ _ _ => text_input i
  end.

Fixpoint answers_from (d : list (string * string))
    (multiselect : nat → list string) (text_input : nat → string)
    (i : nat) (questions : list Question) : list (string * string) :=
  match questions with
  | [] => d
  | q :: rest =>
      answers_from
        (PyDict.set d (prompt q) (widget_answer multiselect text_input i q))
        multiselect text_input (S i) rest
  end.

Definition form_answers (multiselect : nat → list string)
    (text_input : nat → string) (questions : list Question)
  : list (string * string) :=
  answers_from [] multiselect text_input 1 questions.

(** The fractional grade of one question: the grader its [qtype] selects. *)
Definition grade (q : Question) (ans : string) : result Q :=
  match q with
  | Question_mc _ corr _ _ => mc_grader ans corr
  | Question_open _ corr _ => open_grader ans corr
  end.

(** The value of one item of the comprehension at lines 156-159. *)
Definition question_score (answers : list (string * string)) (q : Question)
  : result Q :=
  ans ← PyDict.getitem answers (prompt q) ;;;
  g ← grade q ans ;;;
  Ok (weight q * g)%Q.

(** The comprehension [{q.prompt: ... for q in questions}], item by item. *)
Fixpoint scores_from (d : list (string * Q)) (answers : list (string * string))
    (questions : list Question) : result (list (string * Q)) :=
  match questions with
  | [] => Ok d
  | q :: rest =>
      s ← question_score answers q ;;;
      scores_from (PyDict.set d (prompt q) s) answers rest
  end.

Definition scores (answers : list (string * string)) (questions : list Question)
  : result (list (string * Q)) :=
  scores_from [] answers questions.

(** [sum(xs)]: from 0, adding from the left. *)
Definition sum (xs : list Q) : Q := fold_left Qplus xs 0%Q.

(** The ["Total"] field of the result row (line 101). *)
Definition Total (scores : list (string * Q)) : Q := sum (PyDict.values scores).

(** ** Tables and the parser (app.py, lines 52-89) *)

(** A [DataFrame]: the column labels and, per row, the texts of its cells
    ([str(row[label])]; a cell that pandas holds as missing has the text
    [nan]). *)
Record DataFrame : Type := {
  columns : list string;
  data : list (list string)
}.

(** Every row has one cell per column. *)
Definition well_formed (df : DataFrame) : Prop :=
  Forall (λ cells, length cells = length (columns df)) (data df).

(** [df.iterrows()]: each row as a mapping from label to cell. The labels
    of a table are taken to be distinct: under a repeated label pandas
    yields a Series for [row[label]], where this mapping keeps the first
    cell. *)
Definition iterrows (df : DataFrame) : list (gmap string string) :=
  (λ cells, list_to_map (zip (columns df) cells)) <$> data df.

(** [row[label]]. *)
Definition getitem (row : gmap string string) (label : string) : result string :=
  match row !! label with
  | Some v => Ok v
  | None => Raise (KeyError label)
  end.

Fixpoint mapM {A B : Type} (f : A → result B) (l : list A) : result (list B) :=
  match l with
  | [] => Ok []
  | x :: l' => y ← f x ;;; ys ← mapM f l' ;;; Ok (y :: ys)
  end.

(** The Python runtime, as far as the parser calls it. *)
Record Runtime : Type := {
  (** [float(s)] on a cell text: [None] where it raises [ValueError]. A
      text that [float] reads as [inf] or [nan] has no value here: tables
      with such weights are outside the model. *)
  py_float : string → option Q;
  (** [s.isdigit()]. *)
  py_isdigit : string → bool;
  (** [int(s)]: [None] where it raises [ValueError]. *)
  py_int : string → option Z
}.

(** The segments an index field is read from: [corr.split(";")] without the
    empty ones. *)
Definition index_segments (corr : string) : list string :=
  filter (λ i, i ≠ "") (PyStr.split ";"%char corr).

(** [[int(i)-1 for i in corr.split(";") if i]] (line 62). *)
Definition index_list (int : string → option Z) (corr : string)
  : result (list Z) :=
  mapM (λ i, match int i with
             | Some n => Ok (n - 1)%Z
             | None => Raise (ValueError_int i)
             end)
       (index_segments corr).

(** [[opts[i] for i in idx if 0 <= i < len(opts)]] (line 63). *)
Definition select (opts : list string) (idx : list Z) : list string :=
  omap (λ i, if decide (0 ≤ i < Z.of_nat (length opts))%Z
             then opts !! Z.to_nat i else None) idx.

(** [[o.strip() for o in field.split(";") if o.strip()]] (lines 60 and 65). *)
Definition labels (field : string) : list string :=
  filter (λ o, o ≠ "") (PyStr.strip <$> PyStr.split ";"%char field).

Definition required : list string :=
  ["Frage"; "Typ"; "Antwortmöglichkeiten"; "Richtige Antworten"].

(** An instance of [float] for the samples: [digits], [digits.digits],
    [.digits] or [digits.] between optional blanks, as Python reads them. *)
Definition decimal_float (s : string) : option Q :=
  match PyStr.split "."%char (PyStr.strip s) with
  | [a] =>
      if PyStr.isdigit a then Some (inject_Z (PyStr.digits_value 0%Z a)) else None
  | [a; b] =>
      if PyStr.isdigit (a +:+ b) && PyStr.all_digits a && PyStr.all_digits b
      then Some (inject_Z (PyStr.digits_value 0%Z (a +:+ b))
                 / inject_Z (10 ^ Z.of_nat (String.length b)))%Q
      else None
  | _ => None
  end.

(** An instance of [str.isdigit] for the samples: as Python on texts of
    ASCII characters and on the superscript two, a digit character that is
    no decimal digit. *)
Definition sample_isdigit (s : string) : bool :=
  PyStr.isdigit s || bool_decide (s = "²").

(** An instance of [int] for the samples: as Python on strings of ASCII
    digits, up to the interpreter's default limit of 4300 digits, and on
    the superscript two. *)
Definition sample_int (s : string) : option Z :=
  if PyStr.isdigit s && (String.length s <=? 4300)%nat
  then Some (PyStr.digits_value 0%Z s) else None.

Definition sample_python : Runtime :=
  {| py_float := decimal_float;
     py_isdigit := sample_isdigit;
     py_int := sample_int |}.

Section Parser.

Variable py : Runtime.

(** The order in which the set [required] is iterated (line 86); Python
    fixes none. *)
Variable required_iter : list string.

(** [float(row.get("Gewicht", 1.0))] (line 57). *)
Definition row_weight (row : gmap string string) : result Q :=
  match row !! "Gewicht" with
  | None => Ok 1%Q
  | Some s =>
      match py_float py s with
      | Some w => Ok w
      | None => Raise (ValueError_float s)
      end
  end.

(** The body of the loop of [_df_to_questions] (lines 55-68): the question
    of one row. *)
Definition row_question (row : gmap string string) : result Question :=
  typ ← getitem row "Typ" ;;;
  let qtype := PyStr.lower (PyStr.strip typ) in
  frage ← getitem row "Frage" ;;;
  let prompt := PyStr.strip frage in
  weight ← row_weight row ;;;
  richtige ← getitem row "Richtige Antworten" ;;;
  let corr := PyStr.strip richtige in
  if decide (qtype = "mc") then
    moegl ← getitem row "Antwortmöglichkeiten" ;;;
    let opts := labels moegl in
    if py_isdigit py (PyStr.remove_char ";"%char corr) then
      idx ← index_list (py_int py) corr ;;;
      Ok (Question_mc prompt (select opts idx) opts weight)
    else
      Ok (Question_mc prompt (labels richtige) opts weight)
  else
    Ok (Question_open prompt corr weight).

(** The loop: [qs] is its only state, [qs.append] its only effect. *)
Fixpoint for_rows (qs : list Question) (rows : list (gmap string string))
  : result (list Question) :=
  match rows with
  | [] => Ok qs
  | row :: rest =>
      q ← row_question row ;;;
      for_rows (qs ++ [q]) rest
  end.

Definition _df_to_questions (df : DataFrame) : result (list Question) :=
  for_rows [] (iterrows df).

(** [load_questions] from the table as read from the file (lines 82-89). *)
Definition load_questions (df : DataFrame) : result (list Question) :=
  let df := {| columns := PyStr.strip <$> columns df; data := data df |} in
  if decide (required ⊆ columns df) then _df_to_questions df
  else
    let missing :=
      PyStr.join ", " (filter (λ c, c ∉ columns df) required_iter) in
    Raise (ValueError_columns ("Fehlende Spalten: " +:+ missing)).

End Parser.

(** ** Reference notions the properties are stated with *)

(** The labels at the 1-based positions [ns] of [opts]; a position outside
    [1 .. len(opts)] yields nothing. *)
Definition resolve_positions (opts : list string) (ns : list Z) : list string :=
  omap (λ n, if decide (1 ≤ n ≤ Z.of_nat (length opts))%Z
             then opts !! Z.to_nat (n - 1) else None)
       ns.

(** [int] reads every segment of the index field: [ns] are the numbers. *)
Definition reads_indices (int : string → option Z) (corr : string)
    (ns : list Z) : Prop :=
  Forall2 (λ seg n, int seg = Some n) (index_segments corr) ns.

Definition all_chars (p : ascii → bool) (s : string) : bool :=
  forallb p (PyStr.chars s).

Definition all_space (s : string) : bool := all_chars PyStr.is_space s.

(** The text [msg] holds [name]. *)
Definition mentions (msg name : string) : Prop :=
  ∃ pre post, msg = pre +:+ name +:+ post.

(** [row] is a row of type multiple choice with these cell texts. *)
Definition mc_row (row : gmap string string) (frage richtige moegl : string)
  : Prop :=
  (∃ typ, row !! "Typ" = Some typ ∧ PyStr.lower (PyStr.strip typ) = "mc")
  ∧ row !! "Frage" = Some frage
  ∧ row !! "Richtige Antworten" = Some richtige
  ∧ row !! "Antwortmöglichkeiten" = Some moegl.


(** [s] is the weighted score of [q]: its weight times the grade of the
    answer submitted under its prompt. *)
Definition graded (answers : list (string * string)) (q : Question) (s : Q)
  : Prop :=
  ∃ a g, PyDict.get answers (prompt q) = Some a
         ∧ grade q a = Ok g
         ∧ s = (weight q * g)%Q.

(** The scores mapping holds, under each question's prompt, that question's
    weighted score, and the total is the sum of the weighted scores of all
    questions. *)
Definition scores_are_weighted_grades (answers : list (string * string))
    (questions : list Question) : Prop :=
  ∃ sc ws,
    scores answers questions = Ok sc
    ∧ Forall2 (graded answers) questions ws
    ∧ (∀ i q s, questions !! i = Some q → ws !! i = Some s →
         PyDict.get sc (prompt q) = Some s)
    ∧ Total sc = sum ws.

(** ** Sample inputs *)

Definition colour_row : gmap string string :=
  list_to_map [("Frage", "Colour?"); ("Typ", "mc");
               ("Antwortmöglichkeiten", "Red;Green;Blue");
               ("Richtige Antworten", "1;3")].


Definition no_options_literal_row : gmap string string :=
  list_to_map [("Frage", "Colour?"); ("Typ", "mc");
               ("Antwortmöglichkeiten", ""); ("Richtige Antworten", "Red")].

(** Positions 0 and 7 are out of range. *)
Definition out_of_range_row : gmap string string :=
  list_to_map [("Frage", "Colour?"); ("Typ", "mc");
               ("Antwortmöglichkeiten", "Red;Green;Blue");
               ("Richtige Antworten", "0;2;7")].

(** Literal answers, one of them no option. *)
Definition literal_row : gmap string string :=
  list_to_map [("Frage", "Colour?"); ("Typ", "mc");
               ("Antwortmöglichkeiten", "Red;Green");
               ("Richtige Antworten", " Blue ;; red")].

(** The superscript two: a digit for [isdigit], no number for [int]. *)
Definition superscript_row : gmap string string :=
  list_to_map [("Frage", "Colour?"); ("Typ", "mc");
               ("Antwortmöglichkeiten", "Red;Green");
               ("Richtige Antworten", "²")].

(** An index of 4301 digits, one more than [int] converts. *)
Definition long_index : string :=
  string_of_list_ascii (repeat "1"%char 4301).

Definition long_index_row : gmap string string :=
  list_to_map [("Frage", "Colour?"); ("Typ", "mc");
               ("Antwortmöglichkeiten", "Red;Green");
               ("Richtige Antworten", long_index)].

(** The options cell of a row whose cell was left empty in the file: pandas
    holds it as missing, and its text is [nan]. *)
Definition missing_options_row : gmap string string :=
  list_to_map [("Frage", "Colour?"); ("Typ", "mc");
               ("Antwortmöglichkeiten", "nan"); ("Richtige Antworten", "1")].

(** An options cell of one blank, as a file can hold it, with a literal
    correct answer. *)
Definition blank_options_literal_row : gmap string string :=
  list_to_map [("Frage", "Colour?"); ("Typ", "mc");
               ("Antwortmöglichkeiten", " "); ("Richtige Antworten", "Red")].

Definition table_without_weight : DataFrame :=
  {| columns := [" Frage"; "Typ"; "Antwortmöglichkeiten"; "Richtige Antworten"];
     data := [["Capital?"; "open"; "nan"; "Paris"];
              ["Colour?"; "mc"; "Red;Green;Blue"; "1;3"]] |}.

Definition superscript_table : DataFrame :=
  {| columns := ["Frage"; "Typ"; "Antwortmöglichkeiten"; "Richtige Antworten"];
     data := [["Capital?"; "open"; "nan"; "Paris"];
              ["Colour?"; "mc"; "Red;Green"; "²"]] |}.

Definition table_without_type : DataFrame :=
  {| columns := ["Frage"; " Antwortmöglichkeiten"; "Richtige Antworten "];
     data := [["Capital?"; ""; "Paris"]] |}.

Definition two_questions : list Question :=
  [Question_mc "Letters?" ["A"; "B"] ["A"; "B"; "C"] 1;
   Question_open "Capital?" "Paris" 2].

Definition two_answers : list (string * string) :=
  [("Letters?", "A"); ("Capital?", " paris")].

Definition same_prompt_questions : list Question :=
  [Question_open "Capital?" "Paris" 1; Question_open "Capital?" "Paris" 2].

Definition same_prompt_answers : list (string * string) :=
  [("Capital?", "Paris")].

(** ** The result row (app.py, lines 94-104 and 155-160) *)

(** [c in s]. *)
Definition has_char (c : ascii) (s : string) : Prop := c ∈ PyStr.chars s.

(** The normal form under which both graders compare texts:
    [s.strip().lower()]. *)
Definition norm (s : string) : string := PyStr.lower (PyStr.strip s).

(** [str(i)] of a natural number. *)
Definition str_of_nat (i : nat) : string :=
  NilEmpty.string_of_uint (Nat.to_uint i).

(** The labels [f"F{i} Antwort"] and [f"F{i} Punkte"] (lines 103-104). *)
Definition answer_column (i : nat) : string := "F" +:+ str_of_nat i +:+ " Antwort".

Definition points_column (i : nat) : string := "F" +:+ str_of_nat i +:+ " Punkte".

(** A value of the result row: a text or a number. *)
Inductive cell : Type :=
| Text (s : string)
| Number (x : Q).

(** [d.get(k, default)]. *)
Definition get_default {V : Type} (d : list (string * V)) (k : string)
    (default : V) : V :=
  match PyDict.get d k with
  | Some v => v
  | None => default
  end.

Section SaveResult.

(** [round(x, 2)] is the Python runtime's. *)
Variable round2 : Q → Q.

(** The loop of [save_result] (lines 102-104), from position [i]. *)
Fixpoint row_from (row : list (string * cell))
    (answers : list (string * string)) (scores : list (string * Q))
    (i : nat) (questions : list Question) : list (string * cell) :=
  match questions with
  | [] => row
  | q :: rest =>
      let row :=
        PyDict.set row (answer_column i)
          (Text (get_default answers (prompt q) "")) in
      let row :=
        PyDict.set row (points_column i)
          (Number (round2 (get_default scores (prompt q) 0%Q))) in
      row_from row answers scores (S i) rest
  end.

(** The row [save_result] builds (lines 99-104); [zeit] is the text of the
    current time. Writing it to the file is left to pandas. *)
Definition save_result_row (name zeit : string)
    (answers : list (string * string)) (scores : list (string * Q))
    (questions : list Question) : list (string * cell) :=
  row_from [("Name", Text name); ("Zeit", Text zeit);
            ("Total", Number (sum (PyDict.values scores)))]
           answers scores 1 questions.

(** Pressing the submit button (lines 155-160): the scores of the collected
    answers, then the row that is saved. *)
Definition submit (name zeit : string) (multiselect : nat → list string)
    (text_input : nat → string) (questions : list Question)
  : result (list (string * cell)) :=
  let answers := form_answers multiselect text_input questions in
  sc ← scores answers questions ;;;
  Ok (save_result_row name zeit answers sc questions).

End SaveResult.

(** [round2] gives hundredths, as [round(x, 2)] does. *)
Definition hundredths (round2 : Q → Q) : Prop :=
  ∀ x, ∃ k : Z, (round2 x == k # 100)%Q.

(** An instance of [round(x, 2)] for the samples: the nearest hundredth, and
    of two equally near ones the even one. *)
Definition sample_round2 (x : Q) : Q :=
  let y := (x * 100)%Q in
  let n := (Qnum y / Zpos (Qden y))%Z in
  match (2 * (Qnum y - n * Zpos (Qden y)) ?= Zpos (Qden y))%Z with
  | Lt => n # 100
  | Gt => (n + 1) # 100
  | Eq => (if Z.even n then n else n + 1) # 100
  end.

(** The weighted scores as the submission stores them: the scores mapping
    holds each question's weighted score under its prompt, the points cell
    of the saved row holds it rounded, and the total, in the mapping and in
    the row, is the sum of the weighted scores. *)
Definition weighted_scores_stored (round2 : Q → Q) (name zeit : string)
    (answers : list (string * string)) (questions : list Question) : Prop :=
  ∃ sc ws,
    scores answers questions = Ok sc
    ∧ Forall2 (graded answers) questions ws
    ∧ (∀ i q s, questions !! i = Some q → ws !! i = Some s →
         PyDict.get sc (prompt q) = Some s
         ∧ PyDict.get (save_result_row round2 name zeit answers sc questions)
                      (points_column (S i))
           = Some (Number (round2 s)))
    ∧ Total sc = sum ws
    ∧ PyDict.get (save_result_row round2 name zeit answers sc questions)
                 "Total"
      = Some (Number (sum ws)).

(** The points cell of every question in the saved row is the product of
    its weight and the grade of its answer. *)
Definition stored_scores_are_products (round2 : Q → Q)
    (answers : list (string * string)) (questions : list Question) : Prop :=
  ∃ sc,
    scores answers questions = Ok sc
    ∧ ∀ i q, questions !! i = Some q →
        ∃ a g x,
          PyDict.get answers (prompt q) = Some a
          ∧ grade q a = Ok g
          ∧ PyDict.get (save_result_row round2 "" "" answers sc questions)
                       (points_column (S i))
            = Some (Number x)
          ∧ (x == weight q * g)%Q.

(** One question with three correct labels, of which one is ticked. *)
Definition thirds_question : list Question :=
  [Question_mc "Letters?" ["A"; "B"; "C"] ["A"; "B"; "C"] 1].

Definition thirds_answer : list (string * string) := [("Letters?", "A")].

(** The text does not start with a blank. *)
Definition no_blank_head (s : string) : Prop :=
  match s with
  | "" => True
  | String c _ => PyStr.is_space c = false
  end.

(** A label as the parser keeps it: not empty, stripped, without [';']. *)
Definition clean_label (o : string) : Prop :=
  o ≠ "" ∧ PyStr.strip o = o ∧ ¬ has_char ";"%char o.

(** Two rows agree on the five columns the parser reads. *)
Definition same_fields (row row' : gmap string string) : Prop :=
  ∀ k, k ∈ "Gewicht" :: required → row !! k = row' !! k.

(** The two cells question [q] at position [i] adds to the result row. *)
Definition row_cells (round2 : Q → Q) (answers : list (string * string))
    (scores : list (string * Q)) (i : nat) (q : Question)
  : list (string * cell) :=
  [(answer_column i, Text (get_default answers (prompt q) ""));
   (points_column i, Number (round2 (get_default scores (prompt q) 0%Q)))].

(** Tactics for the sample inputs: a character that does not occur in a
    literal, and a list of literal labels without ['|']. *)
Ltac no_such_char :=
  unfold has_char; simpl; intros Hchar;
  repeat (apply elem_of_cons in Hchar as [Hchar|Hchar]; [discriminate Hchar|]);
  by apply not_elem_of_nil in Hchar.

Ltac plain_labels :=
  repeat (apply Forall_cons; split; [split; [discriminate|no_such_char]|]);
  apply Forall_nil_2.

(** * Properties *)

(** ** The result monad *)

Lemma bind_Ok {A B : Type} (r : result A) (k : A → result B) (b : B) :
  bind r k = Ok b ↔ ∃ a, r = Ok a ∧ k a = Ok b.
Proof.
  destruct r as [a|e]; simpl; split.
  - intros H. exists a. auto.
  - intros (a' & Ha & Hk). congruence.
  - discriminate.
  - intros (a' & Ha & _). discriminate.
Qed.

Lemma mapM_Forall2 {A B : Type} (f : A → result B) (l : list A) (ys : list B) :
  mapM f l = Ok ys ↔ Forall2 (λ x y, f x = Ok y) l ys.
Proof.
  revert ys. induction l as [|x l IH]; intros ys; simpl.
  - split.
    + intros [= <-]. constructor.
    + intros H. inversion H. reflexivity.
  - split.
    + intros H. apply bind_Ok in H as (y & Hy & H).
      apply bind_Ok in H as (ys' & Hys & [= <-]).
      constructor; [exact Hy | apply IH, Hys].
    + intros H. inversion H as [|? y ? ys' Hy Hys]; subst.
      rewrite Hy. simpl. apply IH in Hys. rewrite Hys. reflexivity.
Qed.

Lemma mapM_Raise {A B : Type} (f : A → result B) (l : list A) (x : A) (e : exn) :
  x ∈ l → f x = Raise e → ∃ e', mapM f l = Raise e'.
Proof.
  induction 1 as [x l|x z l Hin IH]; intros Hx; simpl.
  - rewrite Hx. simpl. eauto.
  - destruct (f z) as [y|e0]; simpl; [|eauto].
    destruct (IH Hx) as [e' ->]. simpl. eauto.
Qed.

Lemma mapM_Raise_inv {A B : Type} (f : A → result B) (l : list A) (e : exn) :
  mapM f l = Raise e → ∃ x, x ∈ l ∧ f x = Raise e.
Proof.
  induction l as [|x l IH]; simpl; [discriminate|].
  destruct (f x) as [y|e0] eqn:Hx; simpl.
  - destruct (mapM f l) as [ys|e1]; simpl; [discriminate|].
    intros [= <-]. destruct (IH eq_refl) as (x' & Hin & Hx').
    exists x'. split; [by right|exact Hx'].
  - intros [= <-]. exists x. split; [by left|exact Hx].
Qed.

Lemma mapM_total {A B : Type} (f : A → result B) (l : list A) :
  Forall (λ x, ∃ y, f x = Ok y) l → ∃ ys, mapM f l = Ok ys.
Proof.
  induction 1 as [|x l [y Hy] _ [ys Hys]]; simpl.
  - eauto.
  - rewrite Hy, Hys. simpl. eauto.
Qed.

(** ** Sets of selections *)

Lemma difference_empty_subseteq (u c : gset string) : u ∖ c = ∅ ↔ u ⊆ c.
Proof.
  split.
  - intros H x Hx. destruct (decide (x ∈ c)) as [|Hn]; [assumption|].
    exfalso. apply (not_elem_of_empty (C:=gset string) x).
    rewrite <- H. apply elem_of_difference. split; assumption.
  - intros H. apply set_eq. intros x. rewrite elem_of_difference. split.
    + intros [Hu Hc]. destruct Hc. apply H, Hu.
    + intros Hx. destruct (not_elem_of_empty (C:=gset string) x Hx).
Qed.

Lemma size_pos_nonempty (c : gset string) : c ≠ ∅ → (0 < size c)%nat.
Proof.
  intros H. destruct (size c) eqn:E; [|lia].
  apply size_empty_iff in E. destruct H. apply leibniz_equiv, E.
Qed.

(** ** Quotients of sizes *)

Lemma truediv_nat (a b : nat) :
  (0 < b)%nat →
  truediv (Z.of_nat a) (Z.of_nat b)
  = Ok (inject_Z (Z.of_nat a) / inject_Z (Z.of_nat b))%Q.
Proof.
  intros Hb. unfold truediv. destruct (decide (Z.of_nat b = 0%Z)); [lia|reflexivity].
Qed.

Lemma ratio_bounds (a b : nat) :
  (0 < b)%nat → (a ≤ b)%nat →
  (0 <= inject_Z (Z.of_nat a) / inject_Z (Z.of_nat b)
   ∧ inject_Z (Z.of_nat a) / inject_Z (Z.of_nat b) <= 1)%Q.
Proof.
  intros Hb Hab.
  assert (0 < inject_Z (Z.of_nat b))%Q as Hpos.
  { change 0%Q with (inject_Z 0). rewrite <- Zlt_Qlt. lia. }
  split.
  - apply Qle_shift_div_l; [exact Hpos|].
    rewrite Qmult_0_l. change 0%Q with (inject_Z 0). rewrite <- Zle_Qle. lia.
  - apply Qle_shift_div_r; [exact Hpos|].
    rewrite Qmult_1_l. rewrite <- Zle_Qle. lia.
Qed.

(** ** Multiple-choice grading *)

Lemma mc_grader_empty_answer (corr : list string) : mc_grader "" corr = Ok 0%Q.
Proof. reflexivity. Qed.

Lemma mc_grader_wrong (ans : string) (corr : list string) :
  ¬ user_set ans ⊆ correct_set corr → mc_grader ans corr = Ok 0%Q.
Proof.
  intros H. unfold mc_grader.
  destruct (decide (ans = "")); [reflexivity|].
  simpl. destruct (decide (_ ≠ ∅)) as [|Hn]; [reflexivity|].
  destruct H. apply difference_empty_subseteq.
  destruct (decide (user_set ans ∖ correct_set corr = ∅)); [assumption|contradiction].
Qed.

Lemma mc_grader_no_correct (ans : string) (corr : list string) :
  correct_set corr = ∅ → mc_grader ans corr = Ok 0%Q.
Proof.
  intros H. unfold mc_grader.
  destruct (decide (ans = "")); [reflexivity|].
  simpl. destruct (decide (_ ≠ ∅)); [reflexivity|].
  destruct (decide (correct_set corr ≠ ∅)); [contradiction|reflexivity].
Qed.

Lemma mc_grader_subset (ans : string) (corr : list string) :
  ans ≠ "" → user_set ans ⊆ correct_set corr → correct_set corr ≠ ∅ →
  mc_grader ans corr
  = Ok (inject_Z (Z.of_nat (size (user_set ans)))
        / inject_Z (Z.of_nat (size (correct_set corr))))%Q.
Proof.
  intros Ha Hsub Hc. unfold mc_grader.
  destruct (decide (ans = "")); [contradiction|].
  simpl. destruct (decide (_ ≠ ∅)) as [Hd|_].
  { destruct Hd. apply difference_empty_subseteq, Hsub. }
  destruct (decide (correct_set corr ≠ ∅)); [|contradiction].
  apply truediv_nat, size_pos_nonempty, Hc.
Qed.

Lemma mc_grader_total (ans : string) (corr : list string) :
  ∃ s, mc_grader ans corr = Ok s ∧ (0 <= s ∧ s <= 1)%Q.
Proof.
  destruct (decide (ans = "")) as [->|Ha].
  { exists 0%Q. split; [reflexivity|]. split; discriminate. }
  destruct (decide (user_set ans ⊆ correct_set corr)) as [Hsub|Hn].
  - destruct (decide (correct_set corr = ∅)) as [Hc|Hc].
    + exists 0%Q. split; [apply mc_grader_no_correct, Hc|]. split; discriminate.
    + eexists. split; [apply mc_grader_subset; assumption|].
      apply ratio_bounds; [apply size_pos_nonempty, Hc|apply subseteq_size, Hsub].
  - exists 0%Q. split; [apply mc_grader_wrong, Hn|]. split; discriminate.
Qed.

Lemma open_grader_cases (ans corr : string) :
  open_grader ans corr = Ok 1%Q ∨ open_grader ans corr = Ok 0%Q.
Proof. unfold open_grader. destruct (decide _); auto. Qed.

(** C1. Multiple-choice scoring: an empty answer scores 0; a non-empty answer
    whose selection set [U] holds an element outside the correct set [C]
    scores 0; one with [U] included in a non-empty [C] scores [|U| / |C|]; an
    empty [C] scores 0. With correct answers [{A, B}]: ["A"] scores 1/2,
    ["A|B"] scores 1, ["A|C"] scores 0 and the empty answer scores 0. *)
Theorem C1_mc_grader_rule :
  (∀ (ans : string) (corr : list string),
     (ans = "" → returns (mc_grader ans corr) 0)
     ∧ (ans ≠ "" → ¬ user_set ans ⊆ correct_set corr →
        returns (mc_grader ans corr) 0)
     ∧ (ans ≠ "" → user_set ans ⊆ correct_set corr → correct_set corr ≠ ∅ →
        returns (mc_grader ans corr)
          (inject_Z (Z.of_nat (size (user_set ans)))
           / inject_Z (Z.of_nat (size (correct_set corr)))))
     ∧ (correct_set corr = ∅ → returns (mc_grader ans corr) 0))
  ∧ returns (mc_grader "A" ["A"; "B"]) (1 # 2)
  ∧ returns (mc_grader "A|B" ["A"; "B"]) 1
  ∧ returns (mc_grader "A|C" ["A"; "B"]) 0
  ∧ returns (mc_grader "" ["A"; "B"]) 0.
Proof.
  split.
  - intros ans corr. repeat split.
    + intros ->. exists 0%Q. split; [apply mc_grader_empty_answer|reflexivity].
    + intros _ Hn. exists 0%Q. split; [apply mc_grader_wrong, Hn|reflexivity].
    + intros Ha Hsub Hc. eexists. split; [apply mc_grader_subset; assumption|].
      reflexivity.
    + intros Hc. exists 0%Q. split; [apply mc_grader_no_correct, Hc|reflexivity].
  - split; [|split; [|split]]; eexists;
      (split; [vm_compute; reflexivity|reflexivity]).
Qed.

(** C3. Open-text grading is binary: 1 when answer and reference are equal
    after stripping and lowercasing, 0 otherwise, and no other value. With
    reference ["Paris"], ["  paris "] scores 1 and ["London"] scores 0. *)
Theorem C3_open_grader_binary :
  (∀ ans corr : string,
     (PyStr.lower (PyStr.strip ans) = PyStr.lower (PyStr.strip corr) →
      open_grader ans corr = Ok 1%Q)
     ∧ (PyStr.lower (PyStr.strip ans) ≠ PyStr.lower (PyStr.strip corr) →
        open_grader ans corr = Ok 0%Q)
     ∧ (open_grader ans corr = Ok 1%Q ∨ open_grader ans corr = Ok 0%Q))
  ∧ open_grader "  paris " "Paris" = Ok 1%Q
  ∧ open_grader "London" "Paris" = Ok 0%Q.
Proof.
  split; [|split; reflexivity].
  intros ans corr. unfold open_grader.
  destruct (decide _) as [He|Hn]; repeat split; auto; intros; contradiction.
Qed.

(** C5. Grading is total and bounded: for every question and every raw
    answer the grader returns (it raises nothing, the division included) and
    the score lies between 0 and 1. *)
Theorem C5_grading_total_bounded :
  (∀ (ans : string) (corr : list string),
     ∃ s, mc_grader ans corr = Ok s ∧ (0 <= s ∧ s <= 1)%Q)
  ∧ (∀ ans corr : string,
       ∃ s, open_grader ans corr = Ok s ∧ (0 <= s ∧ s <= 1)%Q)
  ∧ (∀ (q : Question) (ans : string),
       ∃ s, grade q ans = Ok s ∧ (0 <= s ∧ s <= 1)%Q).
Proof.
  assert (∀ ans corr : string,
            ∃ s, open_grader ans corr = Ok s ∧ (0 <= s ∧ s <= 1)%Q) as Hopen.
  { intros ans corr.
    destruct (open_grader_cases ans corr) as [H|H];
      [exists 1%Q|exists 0%Q]; (split; [exact H|split; discriminate]). }
  split; [exact mc_grader_total|]. split; [exact Hopen|].
  intros [p corr opts w|p corr w] ans; simpl; [apply mc_grader_total|apply Hopen].
Qed.

(** C8. The selection set of a raw answer: the segments between ['|'] that
    are non-empty as split, each then stripped and lowercased. A segment of
    blanks passes the test and contributes the empty string, so ["A| "] does
    not grade as ["A"] does. *)
Theorem C8_blank_segment_kept :
  (∀ ans x, x ∈ user_set ans
            ↔ ∃ seg, seg ∈ PyStr.split "|"%char ans ∧ seg ≠ ""
                     ∧ x = PyStr.lower (PyStr.strip seg))
  ∧ user_set "A| " = {[ "a"; "" ]}
  ∧ user_set "A" = {[ "a" ]}
  ∧ mc_grader "A| " ["A"; "B"] = Ok 0%Q
  ∧ returns (mc_grader "A" ["A"; "B"]) (1 # 2).
Proof.
  split; [|split; [|split; [|split]]].
  - intros ans x. unfold user_set.
    rewrite elem_of_list_to_set, list_elem_of_fmap. split.
    + intros (seg & -> & Hseg). apply list_elem_of_filter in Hseg as [Hne Hin].
      eauto.
    + intros (seg & Hin & Hne & ->). exists seg. split; [reflexivity|].
      apply list_elem_of_filter. auto.
  - vm_compute. reflexivity.
  - vm_compute. reflexivity.
  - vm_compute. reflexivity.
  - exists (1 # 2)%Q. split; [vm_compute; reflexivity|reflexivity].
Qed.

(** ** Splitting and index fields *)

(** [index_list] returns exactly when [int] reads every segment. *)
Lemma index_list_Ok (int : string → option Z) (corr : string) (ns : list Z) :
  reads_indices int corr ns →
  index_list int corr = Ok ((λ n, n - 1)%Z <$> ns).
Proof.
  unfold reads_indices, index_list.
  induction 1 as [|seg n segs ns Hn _ IH]; [reflexivity|].
  simpl. rewrite Hn. simpl. rewrite IH. reflexivity.
Qed.

Lemma index_list_inv (int : string → option Z) (corr : string) (idx : list Z) :
  index_list int corr = Ok idx →
  ∃ ns, reads_indices int corr ns ∧ idx = (λ n, n - 1)%Z <$> ns.
Proof.
  unfold reads_indices, index_list. revert idx.
  induction (index_segments corr) as [|seg segs IH]; simpl; intros idx H.
  - injection H as <-. exists []. split; [constructor|reflexivity].
  - destruct (int seg) as [n|] eqn:Hn; [|discriminate]. simpl in H.
    destruct (mapM _ segs) as [idx'|]; [|discriminate]. simpl in H.
    injection H as <-. destruct (IH idx' eq_refl) as (ns & Hns & ->).
    exists (n :: ns). split; [constructor; assumption|reflexivity].
Qed.

(** The first segment [int] rejects is the one the exception carries. *)
Lemma index_list_Raise (int : string → option Z) (corr : string) :
  Exists (λ seg, int seg = None) (index_segments corr) →
  ∃ seg, seg ∈ index_segments corr ∧ int seg = None
         ∧ index_list int corr = Raise (ValueError_int seg).
Proof.
  unfold index_list.
  induction (index_segments corr) as [|seg segs IH]; intros H.
  - inversion H.
  - simpl. destruct (int seg) as [n|] eqn:Hn.
    + apply Exists_cons in H as [H|H]; [congruence|].
      destruct (IH H) as (seg' & Hin & Hnone & Hraise).
      exists seg'. split; [by apply elem_of_cons; right|]. split; [exact Hnone|].
      simpl. rewrite Hraise. reflexivity.
    + exists seg. split; [by apply elem_of_cons; left|]. split; [exact Hn|].
      reflexivity.
Qed.

Lemma index_list_errors (int : string → option Z) (corr : string) (e : exn) :
  index_list int corr = Raise e →
  ∃ seg, seg ∈ index_segments corr ∧ int seg = None ∧ e = ValueError_int seg.
Proof.
  unfold index_list.
  induction (index_segments corr) as [|seg segs IH]; simpl; [discriminate|].
  destruct (int seg) as [n|] eqn:Hn; simpl.
  - destruct (mapM _ segs) as [idx|e'] eqn:Hm; simpl; [discriminate|].
    intros [= <-]. destruct (IH eq_refl) as (seg' & Hin & Hnone & ->).
    exists seg'. split; [by apply elem_of_cons; right|]. auto.
  - intros [= <-]. exists seg. split; [by apply elem_of_cons; left|]. auto.
Qed.

(** The guard [0 <= i < len(opts)] on [i = n - 1] keeps the positions
    [1 .. len(opts)]. *)
Lemma select_positions (opts : list string) (ns : list Z) :
  select opts ((λ n, n - 1)%Z <$> ns) = resolve_positions opts ns.
Proof.
  unfold select, resolve_positions.
  induction ns as [|n ns IH]; [reflexivity|].
  rewrite fmap_cons. cbn [omap list_omap]. rewrite IH.
  destruct (decide (0 ≤ n - 1 < Z.of_nat (length opts))%Z) as [Hz|Hz];
    destruct (decide (1 ≤ n ≤ Z.of_nat (length opts))%Z) as [Hm|Hm];
    try lia; reflexivity.
Qed.

(** The labels selected are those the positions name, in the order of the
    field, each as often as it is named. *)
Lemma resolve_positions_lookup (opts : list string) (ns : list Z) :
  Forall (λ n, (1 ≤ n ≤ Z.of_nat (length opts))%Z) ns →
  Forall2 (λ n o, opts !! Z.to_nat (n - 1) = Some o) ns
          (resolve_positions opts ns).
Proof.
  unfold resolve_positions. induction 1 as [|n ns Hn _ IH]; [constructor|].
  cbn [omap list_omap]. destruct (decide _) as [_|Hno]; [|lia].
  destruct (opts !! Z.to_nat (n - 1)) as [o|] eqn:Ho.
  - constructor; assumption.
  - apply lookup_ge_None in Ho. lia.
Qed.

Lemma resolve_positions_out_of_range (opts : list string) (ns : list Z) :
  resolve_positions opts ns
  = resolve_positions opts
      (filter (λ n, (1 ≤ n ≤ Z.of_nat (length opts))%Z) ns).
Proof.
  unfold resolve_positions. induction ns as [|n ns IH]; [reflexivity|].
  rewrite filter_cons. cbn [omap list_omap].
  destruct (decide (1 ≤ n ≤ Z.of_nat (length opts))%Z) as [Hn|Hn].
  - cbn [omap list_omap]. destruct (decide _) as [_|Hno]; [|lia].
    rewrite IH. reflexivity.
  - exact IH.
Qed.


(** ** Blank fields *)






Lemma all_chars_impl (p p' : ascii → bool) (s : string) :
  (∀ c, p c = true → p' c = true) →
  all_chars p s = true → all_chars p' s = true.
Proof.
  intros Hpp. unfold all_chars. induction s as [|c s IH]; simpl; [reflexivity|].
  intros H. apply andb_prop in H as [Hc Hs]. by rewrite (Hpp c Hc), IH.
Qed.

Lemma lstrip_chars (p : ascii → bool) (s : string) :
  all_chars p (PyStr.lstrip s) = true →
  all_chars (λ c, PyStr.is_space c || p c) s = true.
Proof.
  unfold all_chars. induction s as [|c s IH]; simpl; [reflexivity|].
  destruct (PyStr.is_space c) eqn:E; simpl.
  - exact IH.
  - intros H. apply andb_prop in H as [Hc Hs]. rewrite Hc. simpl.
    revert Hs. apply (all_chars_impl p). intros c' ->. apply orb_true_r.
Qed.

Lemma rstrip_chars (p : ascii → bool) (s : string) :
  all_chars p (PyStr.rstrip s) = true →
  all_chars (λ c, PyStr.is_space c || p c) s = true.
Proof.
  unfold all_chars. induction s as [|c s IH]; simpl; [reflexivity|].
  destruct (PyStr.rstrip s) as [|a r] eqn:E.
  - destruct (PyStr.is_space c) eqn:Ec; simpl.
    + intros _. apply IH. reflexivity.
    + intros H. apply andb_prop in H as [Hc _]. rewrite Hc. simpl.
      apply IH. reflexivity.
  - intros H. apply andb_prop in H as [Hc Hs]. rewrite Hc, orb_true_r. simpl.
    apply IH, Hs.
Qed.

(** Every character of a field is a blank or a character of the stripped
    field. *)
Lemma strip_chars (p : ascii → bool) (s : string) :
  all_chars p (PyStr.strip s) = true →
  all_chars (λ c, PyStr.is_space c || p c) s = true.
Proof.
  intros H. apply rstrip_chars, lstrip_chars in H. revert H.
  apply all_chars_impl. intros c Hc.
  destruct (PyStr.is_space c); [reflexivity|exact Hc].
Qed.

Lemma lstrip_blank (s : string) : all_space s = true → PyStr.lstrip s = "".
Proof.
  unfold all_space, all_chars. induction s as [|c s IH]; simpl; [reflexivity|].
  intros H. apply andb_prop in H as [-> Hs]. apply IH, Hs.
Qed.

Lemma strip_blank (s : string) : all_space s = true → PyStr.strip s = "".
Proof. intros H. unfold PyStr.strip. by rewrite (lstrip_blank s H). Qed.

Lemma remove_char_empty (sep : ascii) (s : string) :
  PyStr.remove_char sep s = "" →
  all_chars (λ c, bool_decide (c = sep)) s = true
  ∧ Forall (λ w, w = "") (PyStr.split sep s).
Proof.
  unfold all_chars. induction s as [|c s IH]; simpl.
  - intros _. split; [reflexivity|]. repeat constructor.
  - destruct (decide (c = sep)) as [->|Hne]; [|discriminate].
    intros H. destruct (IH H) as [Hs Hsplit]. split.
    + rewrite bool_decide_eq_true_2 by reflexivity. exact Hs.
    + constructor; [reflexivity|exact Hsplit].
Qed.

Lemma split_blank_segments (s : string) :
  all_chars (λ c, PyStr.is_space c || bool_decide (c = ";"%char)) s = true →
  Forall (λ w, all_space w = true) (PyStr.split ";"%char s).
Proof.
  unfold all_space, all_chars. induction s as [|c s IH]; simpl.
  - intros _. repeat constructor.
  - intros H. apply andb_prop in H as [Hc Hs]. specialize (IH Hs).
    destruct (decide (c = ";"%char)) as [->|Hne].
    + constructor; [reflexivity|exact IH].
    + rewrite bool_decide_eq_false_2, orb_false_r in Hc by exact Hne.
      destruct (PyStr.split ";"%char s) as [|w ws].
      * repeat constructor. simpl. by rewrite Hc.
      * inversion IH as [|? ? Hw Hws]; subst.
        constructor; [simpl; by rewrite Hc, Hw|exact Hws].
Qed.

Lemma labels_of_blank_segments (ws : list string) :
  Forall (λ w, all_space w = true) ws →
  filter (λ o, o ≠ "") (PyStr.strip <$> ws) = [].
Proof.
  induction 1 as [|w ws Hw _ IH]; [reflexivity|].
  rewrite fmap_cons, filter_cons, (strip_blank w Hw).
  destruct (decide ("" ≠ "")); [congruence|exact IH].
Qed.

(** A field that holds nothing but [';'] between blanks names no answer,
    read as positions or as labels. *)
Lemma only_separators (richtige : string) :
  PyStr.remove_char ";"%char (PyStr.strip richtige) = "" →
  labels richtige = [] ∧ index_segments (PyStr.strip richtige) = [].
Proof.
  intros H. apply remove_char_empty in H as [Hchars Hsegs]. split.
  - unfold labels. apply labels_of_blank_segments, split_blank_segments.
    apply strip_chars, Hchars.
  - unfold index_segments.
    induction Hsegs as [|w ws -> _ IH]; [reflexivity|].
    rewrite filter_cons. destruct (decide ("" ≠ "")); [congruence|exact IH].
Qed.

(** ** Joining and splitting *)

Lemma join_split (sep : ascii) (s : string) :
  PyStr.join (String sep "") (PyStr.split sep s) = s.
Proof.
  induction s as [|c s IH]; [reflexivity|]. simpl.
  destruct (decide (c = sep)) as [->|Hne].
  - destruct (PyStr.split sep s) as [|w ws] eqn:E.
    + destruct s; simpl in E; [discriminate|].
      destruct (decide _); [discriminate|]. destruct (PyStr.split sep s); discriminate.
    + change (PyStr.join (String sep "") ("" :: w :: ws))
        with ("" +:+ String sep "" +:+ PyStr.join (String sep "") (w :: ws)).
      rewrite IH. reflexivity.
  - destruct (PyStr.split sep s) as [|w ws] eqn:E.
    + destruct s; simpl in E; [discriminate|].
      destruct (decide _); [discriminate|]. destruct (PyStr.split sep s); discriminate.
    + destruct ws as [|w' ws].
      * simpl in *. by rewrite IH.
      * change (PyStr.join (String sep "") (String c w :: w' :: ws))
          with (String c (w +:+ String sep "" +:+ PyStr.join (String sep "") (w' :: ws))).
        change (PyStr.join (String sep "") (w :: w' :: ws))
          with (w +:+ String sep "" +:+ PyStr.join (String sep "") (w' :: ws)) in IH.
        by rewrite IH.
Qed.

Lemma append_empty_r (s : string) : s +:+ "" = s.
Proof.
  induction s as [|c s IH]; [reflexivity|].
  change (String c s +:+ "") with (String c (s +:+ "")). by rewrite IH.
Qed.

Lemma append_assoc (a b c : string) : (a +:+ b) +:+ c = a +:+ (b +:+ c).
Proof.
  induction a as [|x a IH]; [reflexivity|].
  change ((String x a +:+ b) +:+ c) with (String x ((a +:+ b) +:+ c)).
  by rewrite IH.
Qed.

Lemma join_mentions (sep : string) (l : list string) (x : string) :
  x ∈ l → mentions (PyStr.join sep l) x.
Proof.
  induction 1 as [x l|x y l Hin IH].
  - destruct l as [|z l].
    + exists "", "". change (PyStr.join sep [x]) with x.
      change ("" +:+ x +:+ "") with (x +:+ ""). by rewrite append_empty_r.
    + exists "", (sep +:+ PyStr.join sep (z :: l)). reflexivity.
  - destruct l as [|z l]; [inversion Hin|].
    destruct IH as (pre & post & IH).
    exists (y +:+ sep +:+ pre), post.
    change (PyStr.join sep (y :: z :: l)) with (y +:+ sep +:+ PyStr.join sep (z :: l)).
    rewrite IH, !append_assoc. reflexivity.
Qed.

(** ** The parser *)

Section ParserProperties.

Variable py : Runtime.

Lemma row_question_mc (row : gmap string string)
    (frage richtige moegl : string) (w : Q) :
  mc_row row frage richtige moegl →
  row_weight py row = Ok w →
  row_question py row
  = if py_isdigit py (PyStr.remove_char ";"%char (PyStr.strip richtige))
    then idx ← index_list (py_int py) (PyStr.strip richtige) ;;;
         Ok (Question_mc (PyStr.strip frage) (select (labels moegl) idx)
               (labels moegl) w)
    else Ok (Question_mc (PyStr.strip frage) (labels richtige)
               (labels moegl) w).
Proof.
  intros ([typ [Htyp Hmc]] & Hfrage & Hrichtige & Hmoegl) Hw.
  unfold row_question, getitem.
  rewrite Htyp, Hfrage, Hrichtige. cbn [bind]. rewrite Hw. cbn [bind].
  destruct (decide (PyStr.lower (PyStr.strip typ) = "mc")); [|contradiction].
  rewrite Hmoegl. reflexivity.
Qed.

(** Index form, every segment read by [int]: the labels at the positions in
    range. *)
Lemma row_question_indices (row : gmap string string)
    (frage richtige moegl : string) (w : Q) (ns : list Z) :
  mc_row row frage richtige moegl →
  row_weight py row = Ok w →
  py_isdigit py (PyStr.remove_char ";"%char (PyStr.strip richtige)) = true →
  reads_indices (py_int py) (PyStr.strip richtige) ns →
  row_question py row
  = Ok (Question_mc (PyStr.strip frage)
          (resolve_positions (labels moegl) ns) (labels moegl) w).
Proof.
  intros Hrow Hw Hd Hns.
  rewrite (row_question_mc _ _ _ _ _ Hrow Hw), Hd.
  rewrite (index_list_Ok _ _ _ Hns). cbn [bind].
  rewrite select_positions. reflexivity.
Qed.

(** Index form, a segment [int] rejects: its [ValueError] leaves the loop
    body. *)
Lemma row_question_bad_index (row : gmap string string)
    (frage richtige moegl : string) (w : Q) :
  mc_row row frage richtige moegl →
  row_weight py row = Ok w →
  py_isdigit py (PyStr.remove_char ";"%char (PyStr.strip richtige)) = true →
  Exists (λ seg, py_int py seg = None) (index_segments (PyStr.strip richtige)) →
  ∃ seg, seg ∈ index_segments (PyStr.strip richtige)
         ∧ py_int py seg = None
         ∧ row_question py row = Raise (ValueError_int seg).
Proof.
  intros Hrow Hw Hd Hbad.
  destruct (index_list_Raise _ _ Hbad) as (seg & Hin & Hnone & Hraise).
  exists seg. split; [exact Hin|]. split; [exact Hnone|].
  rewrite (row_question_mc _ _ _ _ _ Hrow Hw), Hd, Hraise. reflexivity.
Qed.

Lemma row_question_literals (row : gmap string string)
    (frage richtige moegl : string) (w : Q) :
  mc_row row frage richtige moegl →
  row_weight py row = Ok w →
  py_isdigit py (PyStr.remove_char ";"%char (PyStr.strip richtige)) = false →
  row_question py row
  = Ok (Question_mc (PyStr.strip frage) (labels richtige) (labels moegl) w).
Proof.
  intros Hrow Hw Hd.
  rewrite (row_question_mc _ _ _ _ _ Hrow Hw), Hd. reflexivity.
Qed.

Lemma for_rows_mapM (rows : list (gmap string string)) (qs : list Question) :
  for_rows py qs rows
  = (ys ← mapM (row_question py) rows ;;; Ok (qs ++ ys)%list).
Proof.
  revert qs. induction rows as [|row rows IH]; intros qs; simpl.
  - by rewrite app_nil_r.
  - destruct (row_question py row) as [q|e]; simpl; [|reflexivity].
    rewrite IH. destruct (mapM _ rows) as [ys|e]; simpl; [|reflexivity].
    by rewrite <- app_assoc.
Qed.

Lemma _df_to_questions_mapM (df : DataFrame) :
  _df_to_questions py df = mapM (row_question py) (iterrows df).
Proof.
  unfold _df_to_questions. rewrite for_rows_mapM.
  destruct (mapM _ _); reflexivity.
Qed.

Lemma row_question_weight (row : gmap string string) (q : Question) :
  row_question py row = Ok q → row_weight py row = Ok (weight q).
Proof.
  unfold row_question. intros H.
  apply bind_Ok in H as (typ & _ & H).
  apply bind_Ok in H as (frage & _ & H).
  apply bind_Ok in H as (w & Hw & H).
  apply bind_Ok in H as (richtige & _ & H).
  rewrite Hw. f_equal.
  destruct (decide _).
  - apply bind_Ok in H as (moegl & _ & H).
    destruct (py_isdigit py _).
    + apply bind_Ok in H as (idx & _ & [= <-]). reflexivity.
    + injection H as <-. reflexivity.
  - injection H as <-. reflexivity.
Qed.

Lemma row_question_bad_weight (row : gmap string string) (s : string) :
  row !! "Gewicht" = Some s → py_float py s = None →
  ∃ e, row_question py row = Raise e.
Proof.
  intros Hs Hf. unfold row_question, getitem.
  destruct (row !! "Typ"); simpl; [|eauto].
  destruct (row !! "Frage"); simpl; [|eauto].
  unfold row_weight. rewrite Hs, Hf. simpl. eauto.
Qed.

(** The exceptions of the loop body: a [KeyError] of a required column the
    row lacks, the [ValueError] of [float] on the weight cell, or the
    [ValueError] of [int] on a segment of the index field. *)
Lemma row_question_errors (row : gmap string string) (e : exn) :
  row_question py row = Raise e →
  (∃ k, k ∈ required ∧ row !! k = None ∧ e = KeyError k)
  ∨ (∃ s, row !! "Gewicht" = Some s ∧ py_float py s = None
          ∧ e = ValueError_float s)
  ∨ (∃ richtige seg,
       row !! "Richtige Antworten" = Some richtige
       ∧ seg ∈ index_segments (PyStr.strip richtige)
       ∧ py_int py seg = None
       ∧ e = ValueError_int seg).
Proof.
  unfold row_question, getitem. intros H.
  destruct (row !! "Typ") as [typ|] eqn:Htyp; cbn [bind] in H.
  2: { injection H as <-. left. exists "Typ".
       split; [set_solver|]. split; [exact Htyp|reflexivity]. }
  destruct (row !! "Frage") as [frage|] eqn:Hfrage; cbn [bind] in H.
  2: { injection H as <-. left. exists "Frage".
       split; [set_solver|]. split; [exact Hfrage|reflexivity]. }
  unfold row_weight in H.
  destruct (row !! "Gewicht") as [s|] eqn:Hg.
  - destruct (py_float py s) as [w|] eqn:Hf; cbn [bind] in H.
    2: { injection H as <-. right. left. exists s. auto. }
    destruct (row !! "Richtige Antworten") as [richtige|] eqn:Hr;
      cbn [bind] in H.
    2: { injection H as <-. left. exists "Richtige Antworten".
         split; [set_solver|]. split; [exact Hr|reflexivity]. }
    destruct (decide _); [|discriminate].
    destruct (row !! "Antwortmöglichkeiten") as [moegl|] eqn:Hm;
      cbn [bind] in H.
    2: { injection H as <-. left. exists "Antwortmöglichkeiten".
         split; [set_solver|]. split; [exact Hm|reflexivity]. }
    destruct (py_isdigit py _); [|discriminate].
    destruct (index_list (py_int py) (PyStr.strip richtige)) as [idx|e']
      eqn:Hidx; cbn [bind] in H; [discriminate|].
    injection H as <-.
    destruct (index_list_errors _ _ _ Hidx) as (seg & Hin & Hnone & ->).
    right. right. exists richtige, seg. auto.
  - cbn [bind] in H.
    destruct (row !! "Richtige Antworten") as [richtige|] eqn:Hr;
      cbn [bind] in H.
    2: { injection H as <-. left. exists "Richtige Antworten".
         split; [set_solver|]. split; [exact Hr|reflexivity]. }
    destruct (decide _); [|discriminate].
    destruct (row !! "Antwortmöglichkeiten") as [moegl|] eqn:Hm;
      cbn [bind] in H.
    2: { injection H as <-. left. exists "Antwortmöglichkeiten".
         split; [set_solver|]. split; [exact Hm|reflexivity]. }
    destruct (py_isdigit py _); [|discriminate].
    destruct (index_list (py_int py) (PyStr.strip richtige)) as [idx|e']
      eqn:Hidx; cbn [bind] in H; [discriminate|].
    injection H as <-.
    destruct (index_list_errors _ _ _ Hidx) as (seg & Hin & Hnone & ->).
    right. right. exists richtige, seg. auto.
Qed.

(** The exception of the parse is that of the first row whose body
    raises. *)
Lemma mapM_first_Raise {A B : Type} (f : A → result B) (l : list A)
    (i : nat) (x : A) (e : exn) :
  l !! i = Some x → f x = Raise e →
  (∀ j y, (j < i)%nat → l !! j = Some y → ∃ b, f y = Ok b) →
  mapM f l = Raise e.
Proof.
  revert i. induction l as [|a l IH]; intros i Hi He Hbefore; [done|].
  destruct i as [|i]; simpl in Hi.
  - injection Hi as ->. simpl. rewrite He. reflexivity.
  - simpl. destruct (Hbefore 0%nat a ltac:(lia) eq_refl) as [b ->]. simpl.
    rewrite (IH i Hi He); [reflexivity|].
    intros j y Hj Hy. apply (Hbefore (S j) y); [lia|exact Hy].
Qed.

(** X19. The parser keeps the order of the rows: a returned list has one
    question per row, the i-th parsed from the i-th row; the list the loop
    appends to is only extended at its end; and when a row's body raises
    while every row before it parses, the parse raises that row's
    exception. *)
Theorem X19_questions_in_row_order (df : DataFrame) :
  (∀ qs, _df_to_questions py df = Ok qs →
     length qs = length (data df)
     ∧ ∀ i row, iterrows df !! i = Some row →
         ∃ q, qs !! i = Some q ∧ row_question py row = Ok q)
  ∧ (∀ qs0 qs, _df_to_questions py df = Ok qs →
       for_rows py qs0 (iterrows df) = Ok (qs0 ++ qs)%list)
  ∧ (∀ i row e, iterrows df !! i = Some row →
       row_question py row = Raise e →
       (∀ j row', (j < i)%nat → iterrows df !! j = Some row' →
          ∃ q, row_question py row' = Ok q) →
       _df_to_questions py df = Raise e).
Proof.
  split; [|split].
  - intros qs H. rewrite _df_to_questions_mapM in H.
    apply mapM_Forall2 in H. split.
    + apply Forall2_length in H. unfold iterrows in H.
      rewrite length_fmap in H. congruence.
    + intros i row Hi.
      destruct (Forall2_lookup_l _ _ _ _ _ H Hi) as (q & Hq & Hrow). eauto.
  - intros qs0 qs H. rewrite _df_to_questions_mapM in H.
    rewrite for_rows_mapM, H. reflexivity.
  - intros i row e Hi He Hbefore. rewrite _df_to_questions_mapM.
    eapply mapM_first_Raise; eauto.
Qed.

(** C10. A weight cell that [float] rejects aborts the whole parse: no
    question is returned for any table that holds such a row. The default
    weight 1 is that of a row without the column; a row with the column
    gets the value [float] reads. *)
Theorem C10_unparseable_weight_aborts :
  (∀ df row s, row ∈ iterrows df → row !! "Gewicht" = Some s →
     py_float py s = None →
     row_weight py row = Raise (ValueError_float s)
     ∧ ∃ e, _df_to_questions py df = Raise e)
  ∧ (∀ row q, row_question py row = Ok q →
       match row !! "Gewicht" with
       | None => weight q = 1%Q
       | Some s => py_float py s = Some (weight q)
       end)
  ∧ _df_to_questions sample_python
      {| columns := ["Frage"; "Typ"; "Antwortmöglichkeiten";
                     "Richtige Antworten"; "Gewicht"];
         data := [["Capital?"; "open"; ""; "Paris"; "2.5"];
                  ["Colour?"; "mc"; "Red;Blue"; "1"; "heavy"]] |}
    = Raise (ValueError_float "heavy").
Proof.
  split; [|split].
  - intros df row s Hin Hs Hf. split.
    + unfold row_weight. rewrite Hs, Hf. reflexivity.
    + rewrite _df_to_questions_mapM.
      destruct (row_question_bad_weight row s Hs Hf) as [e He].
      eapply mapM_Raise; eauto.
  - intros row q H. apply row_question_weight in H. unfold row_weight in H.
    destruct (row !! "Gewicht") as [s|].
    + destruct (py_float py s); [|discriminate]. congruence.
    + congruence.
  - vm_compute. reflexivity.
Qed.

End ParserProperties.

(** C2. Resolution of the correct answers of a multiple-choice row. When
    [isdigit] holds of the stripped field without its [';'], the field is a
    list of 1-based positions in the parsed options: if [int] reads every
    segment, positions out of range are dropped and the others give their
    labels, in the order of the field; if [int] rejects a segment, its
    [ValueError] leaves the parser. Otherwise the field is a list of literal
    labels, stripped, empties dropped, whatever the options are. On the
    samples: positions 1 and 3 of Red, Green, Blue give Red and Blue;
    positions 0 and 7 are dropped; the literal Blue is kept although it is
    no option; the superscript two and an index of 4301 digits pass
    [isdigit] and raise in [int]. *)
Theorem C2_correct_answers_resolution :
  (∀ py row frage richtige moegl w,
     mc_row row frage richtige moegl →
     row_weight py row = Ok w →
     py_isdigit py (PyStr.remove_char ";"%char (PyStr.strip richtige)) = true →
     (∀ ns, reads_indices (py_int py) (PyStr.strip richtige) ns →
        row_question py row
        = Ok (Question_mc (PyStr.strip frage)
                (resolve_positions (labels moegl) ns) (labels moegl) w))
     ∧ (Exists (λ seg, py_int py seg = None)
               (index_segments (PyStr.strip richtige)) →
        ∃ seg, seg ∈ index_segments (PyStr.strip richtige)
               ∧ py_int py seg = None
               ∧ row_question py row = Raise (ValueError_int seg)))
  ∧ (∀ py row frage richtige moegl w,
       mc_row row frage richtige moegl →
       row_weight py row = Ok w →
       py_isdigit py (PyStr.remove_char ";"%char (PyStr.strip richtige))
       = false →
       row_question py row
       = Ok (Question_mc (PyStr.strip frage) (labels richtige)
               (labels moegl) w))
  ∧ (∀ opts ns,
       resolve_positions opts ns
       = resolve_positions opts
           (filter (λ n, (1 ≤ n ≤ Z.of_nat (length opts))%Z) ns)
       ∧ (Forall (λ n, (1 ≤ n ≤ Z.of_nat (length opts))%Z) ns →
          Forall2 (λ n o, opts !! Z.to_nat (n - 1) = Some o) ns
                  (resolve_positions opts ns)))
  ∧ (∀ field o, o ∈ labels field
                ↔ o ≠ "" ∧ ∃ seg, seg ∈ PyStr.split ";"%char field
                                  ∧ o = PyStr.strip seg)
  ∧ row_question sample_python colour_row
    = Ok (Question_mc "Colour?" ["Red"; "Blue"] ["Red"; "Green"; "Blue"] 1)
  ∧ row_question sample_python out_of_range_row
    = Ok (Question_mc "Colour?" ["Green"] ["Red"; "Green"; "Blue"] 1)
  ∧ row_question sample_python literal_row
    = Ok (Question_mc "Colour?" ["Blue"; "red"] ["Red"; "Green"] 1)
  ∧ row_question sample_python superscript_row = Raise (ValueError_int "²")
  ∧ row_question sample_python long_index_row
    = Raise (ValueError_int long_index).
Proof.
  split; [|split; [|split; [|split]]].
  - intros py row frage richtige moegl w Hrow Hw Hd. split.
    + intros ns Hns.
      exact (row_question_indices py row frage richtige moegl w ns
               Hrow Hw Hd Hns).
    + intros Hbad.
      exact (row_question_bad_index py row frage richtige moegl w
               Hrow Hw Hd Hbad).
  - intros py row frage richtige moegl w Hrow Hw Hd.
    exact (row_question_literals py row frage richtige moegl w Hrow Hw Hd).
  - intros opts ns. split.
    + apply resolve_positions_out_of_range.
    + apply resolve_positions_lookup.
  - intros field o. unfold labels.
    rewrite list_elem_of_filter, list_elem_of_fmap. split.
    + intros [Hne (seg & -> & Hin)]. eauto.
    + intros [Hne (seg & Hin & ->)]. eauto.
  - repeat split; vm_compute; reflexivity.
Qed.

(** ** Rows of a well-formed table *)

Lemma row_lookup_column (cols cells : list string) (c : string) :
  length cells = length cols → c ∈ cols →
  is_Some ((list_to_map (zip cols cells) : gmap string string) !! c).
Proof.
  intros Hlen Hc.
  destruct (list_to_map (zip cols cells) !! c) eqn:E; [eauto|].
  apply not_elem_of_list_to_map_2 in E.
  rewrite fst_zip in E by lia. contradiction.
Qed.

Lemma row_lookup_absent (cols cells : list string) (c : string) :
  c ∉ cols → (list_to_map (zip cols cells) : gmap string string) !! c = None.
Proof.
  intros Hc. apply not_elem_of_list_to_map_1. intros H.
  apply list_elem_of_fmap in H as ([k v] & -> & H).
  apply elem_of_zip_l in H. contradiction.
Qed.

Lemma not_subseteq_missing (cols : list string) :
  ¬ required ⊆ cols → ∃ c, c ∈ required ∧ c ∉ cols.
Proof.
  intros H.
  destruct (decide (Exists (λ c, c ∉ cols) required)) as [He|Hn].
  - apply Exists_exists in He. exact He.
  - destruct H. intros c Hc.
    destruct (decide (c ∈ cols)) as [|Hnc]; [assumption|].
    destruct Hn. apply Exists_exists. eauto.
Qed.

Section LoadProperties.

Variable py : Runtime.
Variable required_iter : list string.

(** Past the check of line 85, the loader is the parser on the table with
    stripped labels. *)
Lemma load_questions_checked (df : DataFrame) :
  required ⊆ PyStr.strip <$> columns df →
  load_questions py required_iter df
  = _df_to_questions py
      {| columns := PyStr.strip <$> columns df; data := data df |}.
Proof.
  intros Hreq. unfold load_questions. cbn [columns].
  destruct (decide _) as [_|Hn]; [reflexivity|contradiction].
Qed.

Lemma _df_to_questions_errors (df : DataFrame) (e : exn) :
  _df_to_questions py df = Raise e →
  ∃ row, row ∈ iterrows df ∧ row_question py row = Raise e.
Proof. rewrite _df_to_questions_mapM. apply mapM_Raise_inv. Qed.

Lemma _df_to_questions_no_column_error (df : DataFrame) (msg : string) :
  _df_to_questions py df ≠ Raise (ValueError_columns msg).
Proof.
  intros H. apply _df_to_questions_errors in H as (row & _ & H).
  apply row_question_errors in H
    as [(k & _ & _ & H)|[(s & _ & _ & H)|(r & seg & _ & _ & _ & H)]];
    discriminate H.
Qed.

Lemma no_weight_column (df : DataFrame) (qs : list Question) :
  "Gewicht" ∉ columns df →
  _df_to_questions py df = Ok qs →
  length qs = length (data df) ∧ Forall (λ q, weight q = 1%Q) qs.
Proof.
  intros Hg H. rewrite _df_to_questions_mapM in H. apply mapM_Forall2 in H.
  split.
  - apply Forall2_length in H. unfold iterrows in H.
    rewrite length_fmap in H. symmetry. exact H.
  - assert (Forall (λ row : gmap string string, row !! "Gewicht" = None)
              (iterrows df)) as Hrows.
    { unfold iterrows. apply Forall_fmap, Forall_forall. intros cells _.
      simpl. apply row_lookup_absent, Hg. }
    induction H as [|row q rows qs' Hq _ IH]; [constructor|].
    inversion Hrows as [|? ? Hnone Hrest]; subst.
    constructor; [|apply IH, Hrest].
    apply row_question_weight in Hq. unfold row_weight in Hq.
    rewrite Hnone in Hq. congruence.
Qed.

(** C4. A table that lacks a required column is refused: [load_questions]
    raises the error whose message lists exactly the required columns that
    are absent, so it holds the name of each of them, and returns no
    question. The weight column is not required: on a table with the four
    required columns the loader is the parser, which never raises this
    error, and without a weight column every question it returns has
    weight 1. *)
Theorem C4_missing_column_schema_error :
  required_iter ≡ₚ required →
  (∀ df, ¬ required ⊆ PyStr.strip <$> columns df →
     ∃ missing,
       load_questions py required_iter df
       = Raise (ValueError_columns
                  ("Fehlende Spalten: " +:+ PyStr.join ", " missing))
       ∧ missing ≠ []
       ∧ (∀ c, c ∈ missing ↔ c ∈ required ∧ c ∉ PyStr.strip <$> columns df)
       ∧ ∀ c, c ∈ required → c ∉ PyStr.strip <$> columns df →
              mentions ("Fehlende Spalten: " +:+ PyStr.join ", " missing) c)
  ∧ (∀ df, required ⊆ PyStr.strip <$> columns df →
       load_questions py required_iter df
       = _df_to_questions py
           {| columns := PyStr.strip <$> columns df; data := data df |}
       ∧ (∀ msg, load_questions py required_iter df
                 ≠ Raise (ValueError_columns msg))
       ∧ ("Gewicht" ∉ PyStr.strip <$> columns df →
          ∀ qs, load_questions py required_iter df = Ok qs →
                length qs = length (data df)
                ∧ Forall (λ q, weight q = 1%Q) qs)).
Proof.
  intros Hperm. split.
  - intros df Hn. unfold load_questions. cbn [columns].
    destruct (decide _) as [Hs|_]; [contradiction|].
    eexists. split; [reflexivity|].
    assert (∀ c, c ∈ filter (λ c, c ∉ PyStr.strip <$> columns df) required_iter
                 ↔ c ∈ required ∧ c ∉ PyStr.strip <$> columns df) as Hiff.
    { intros c. rewrite list_elem_of_filter, Hperm. tauto. }
    split; [|split; [exact Hiff|]].
    + destruct (not_subseteq_missing _ Hn) as (c & Hc1 & Hc2).
      intros Hnil.
      assert (c ∈ @nil string) as Hc; [|by apply not_elem_of_nil in Hc].
      rewrite <- Hnil. apply Hiff. auto.
    + intros c Hc Hnc.
      destruct (join_mentions ", " _ c (proj2 (Hiff c) (conj Hc Hnc)))
        as (pre & post & Hjoin).
      exists ("Fehlende Spalten: " +:+ pre), post.
      rewrite Hjoin, append_assoc. reflexivity.
  - intros df Hreq. rewrite (load_questions_checked df Hreq).
    split; [reflexivity|]. split.
    + intros msg. apply _df_to_questions_no_column_error.
    + intros Hg qs Hqs.
      exact (no_weight_column
               {| columns := PyStr.strip <$> columns df; data := data df |}
               qs Hg Hqs).
Qed.

End LoadProperties.

(** ** Rows without options *)



(** ** Dictionaries and the score mapping *)

Lemma dict_set_fresh {V : Type} (d : list (string * V)) (k : string) (v : V) :
  k ∉ PyDict.keys d → PyDict.set d k v = (d ++ [(k, v)])%list.
Proof.
  unfold PyDict.keys. induction d as [|[k' v'] d IH]; simpl; [reflexivity|].
  intros Hk. apply not_elem_of_cons in Hk as [Hne Hk].
  destruct (decide (k' = k)); [congruence|]. by rewrite IH.
Qed.

Lemma dict_get_zip {V : Type} (ks : list string) (vs : list V) (i : nat)
    (k : string) (v : V) :
  NoDup ks → ks !! i = Some k → vs !! i = Some v →
  PyDict.get (zip ks vs) k = Some v.
Proof.
  intros Hnd. revert vs i. induction Hnd as [|k0 ks Hk0 _ IH]; intros vs i Hk Hv.
  - destruct i; discriminate.
  - destruct vs as [|v0 vs]; [destruct i; discriminate|].
    destruct i as [|i]; simpl in *.
    + injection Hk as ->. injection Hv as ->.
      destruct (decide (k = k)); [reflexivity|congruence].
    + destruct (decide (k0 = k)) as [->|_].
      * destruct Hk0. eapply list_elem_of_lookup_2, Hk.
      * eapply IH; eassumption.
Qed.

Lemma dict_get_set {V : Type} (d : list (string * V)) (k k' : string) (v : V) :
  PyDict.get (PyDict.set d k v) k'
  = if decide (k = k') then Some v else PyDict.get d k'.
Proof.
  induction d as [|[k0 v0] d IH]; simpl.
  - destruct (decide (k = k')); reflexivity.
  - destruct (decide (k0 = k)) as [->|Hne]; simpl.
    + destruct (decide (k = k')); reflexivity.
    + rewrite IH. destruct (decide (k0 = k')) as [->|_]; [|reflexivity].
      destruct (decide (k = k')); [congruence|reflexivity].
Qed.

Lemma answers_from_keeps (multiselect : nat → list string)
    (text_input : nat → string) (questions : list Question)
    (d : list (string * string)) (i : nat) (k : string) :
  is_Some (PyDict.get d k) →
  is_Some (PyDict.get (answers_from d multiselect text_input i questions) k).
Proof.
  revert d i. induction questions as [|q qs IH]; intros d i Hk; [exact Hk|].
  simpl. apply IH. rewrite dict_get_set.
  destruct (decide (prompt q = k)); [eauto|exact Hk].
Qed.

(** The form stores an answer under every prompt, so no lookup of the score
    computation raises. *)
Lemma form_answers_complete (multiselect : nat → list string)
    (text_input : nat → string) (questions : list Question) :
  Forall (λ q, is_Some (PyDict.get
                          (form_answers multiselect text_input questions)
                          (prompt q)))
         questions.
Proof.
  unfold form_answers. generalize (@nil (string * string)) 1%nat.
  induction questions as [|q qs IH]; intros d i; [constructor|].
  simpl. constructor; [|apply IH].
  apply answers_from_keeps. rewrite dict_get_set.
  destruct (decide (prompt q = prompt q)); [eauto|congruence].
Qed.

Lemma grade_total (q : Question) (ans : string) : ∃ g, grade q ans = Ok g.
Proof.
  destruct q as [p corr opts w|p corr w]; simpl.
  - destruct (mc_grader_total ans corr) as (s & Hs & _). eauto.
  - destruct (open_grader_cases ans corr); eauto.
Qed.

Lemma question_score_graded (answers : list (string * string)) (q : Question) :
  is_Some (PyDict.get answers (prompt q)) →
  ∃ s, question_score answers q = Ok s ∧ graded answers q s.
Proof.
  intros [a Ha]. destruct (grade_total q a) as [g Hg].
  exists (weight q * g)%Q. unfold question_score, PyDict.getitem, graded.
  rewrite Ha. cbn [bind]. rewrite Hg. cbn [bind]. split; [reflexivity|]. eauto.
Qed.

Lemma question_score_inv (answers : list (string * string)) (q : Question)
    (s : Q) :
  question_score answers q = Ok s → graded answers q s.
Proof.
  unfold question_score, PyDict.getitem, graded. intros H.
  apply bind_Ok in H as (a & Ha & H).
  apply bind_Ok in H as (g & Hg & [= <-]).
  destruct (PyDict.get answers (prompt q)) as [a'|]; [|discriminate].
  injection Ha as ->. eauto.
Qed.

Lemma scores_from_fresh (answers : list (string * string))
    (questions : list Question) (d : list (string * Q)) (ws : list Q) :
  NoDup (PyDict.keys d ++ (prompt <$> questions)) →
  mapM (question_score answers) questions = Ok ws →
  scores_from d answers questions
  = Ok (d ++ zip (prompt <$> questions) ws)%list.
Proof.
  revert d ws. induction questions as [|q qs IH]; intros d ws Hnd Hws.
  - injection Hws as <-. simpl. by rewrite app_nil_r.
  - simpl in Hws. apply bind_Ok in Hws as (s & Hs & Hws).
    apply bind_Ok in Hws as (ws' & Hws' & [= <-]).
    simpl. rewrite Hs. cbn [bind].
    rewrite fmap_cons in Hnd. apply NoDup_app in Hnd as (Hd & Hdis & Hq).
    apply NoDup_cons in Hq as [Hq Hqs].
    rewrite dict_set_fresh by (intros Hin; apply (Hdis _ Hin); left).
    rewrite (IH _ ws').
    + by rewrite <- app_assoc.
    + unfold PyDict.keys. rewrite fmap_app. simpl.
      rewrite <- app_assoc. simpl. apply NoDup_app. split; [exact Hd|].
      split; [exact Hdis|]. apply NoDup_cons. auto.
    + exact Hws'.
Qed.

Lemma scores_weighted (answers : list (string * string))
    (questions : list Question) :
  NoDup (prompt <$> questions) →
  Forall (λ q, is_Some (PyDict.get answers (prompt q))) questions →
  ∃ ws, mapM (question_score answers) questions = Ok ws
        ∧ scores answers questions = Ok (zip (prompt <$> questions) ws)
        ∧ Forall2 (graded answers) questions ws.
Proof.
  intros Hnd Hans.
  destruct (mapM_total (question_score answers) questions) as [ws Hws].
  { eapply Forall_impl; [exact Hans|]. intros q Hq.
    destruct (question_score_graded answers q Hq) as (s & Hs & _). eauto. }
  exists ws. split; [exact Hws|]. split.
  - unfold scores. by rewrite (scores_from_fresh answers questions [] ws).
  - apply mapM_Forall2 in Hws. eapply Forall2_impl; [exact Hws|].
    apply question_score_inv.
Qed.

(** With distinct prompts and an answer under each, the score mapping
    holds every question's weighted score and the total is their sum. *)
Lemma scores_weighted_total (questions : list Question) :
  NoDup (prompt <$> questions) →
  (∀ answers,
     Forall (λ q, is_Some (PyDict.get answers (prompt q))) questions →
     scores_are_weighted_grades answers questions)
  ∧ (∀ multiselect text_input,
       scores_are_weighted_grades
         (form_answers multiselect text_input questions) questions).
Proof.
  intros Hnd.
  assert (∀ answers,
            Forall (λ q, is_Some (PyDict.get answers (prompt q))) questions →
            scores_are_weighted_grades answers questions) as Hgen.
  { intros answers Hans.
    destruct (scores_weighted answers questions Hnd Hans) as (ws & _ & Hsc & Hg).
    assert (length (prompt <$> questions) = length ws) as Hlen.
    { rewrite length_fmap. eapply Forall2_length, Hg. }
    exists (zip (prompt <$> questions) ws), ws. split; [exact Hsc|].
    split; [exact Hg|]. split.
    - intros i q s Hq Hs. eapply dict_get_zip; [exact Hnd| |exact Hs].
      rewrite list_lookup_fmap, Hq. reflexivity.
    - unfold Total, PyDict.values. rewrite snd_zip by lia. reflexivity. }
  split; [exact Hgen|].
  intros multiselect text_input. apply Hgen, form_answers_complete.
Qed.

(** ** The properties on the sample inputs *)

Example literal_answers_unchecked :
  row_question sample_python no_options_literal_row
  = Ok (Question_mc "Colour?" ["Red"] [] 1).
Proof. vm_compute. reflexivity. Qed.

(** An options cell left empty in the file is read as missing; its text
    [nan] is not blank and becomes the one option of the question. *)
Example missing_options_cell :
  row_question sample_python missing_options_row
  = Ok (Question_mc "Colour?" ["nan"] ["nan"] 1).
Proof. vm_compute. reflexivity. Qed.

Example blank_options_cell :
  row_question sample_python blank_options_literal_row
  = Ok (Question_mc "Colour?" ["Red"] [] 1)
  ∧ returns (grade (Question_mc "Colour?" ["Red"] [] 1) "Red") 1.
Proof.
  split; [vm_compute; reflexivity|].
  eexists. split; [vm_compute; reflexivity|reflexivity].
Qed.

Lemma C4_witness :
  required ≡ₚ required
  ∧ ¬ required ⊆ PyStr.strip <$> columns table_without_type
  ∧ (∃ missing,
       load_questions sample_python required table_without_type
       = Raise (ValueError_columns
                  ("Fehlende Spalten: " +:+ PyStr.join ", " missing))
       ∧ missing ≠ []
       ∧ (∀ c, c ∈ missing
               ↔ c ∈ required ∧ c ∉ PyStr.strip <$> columns table_without_type)
       ∧ ∀ c, c ∈ required → c ∉ PyStr.strip <$> columns table_without_type →
              mentions ("Fehlende Spalten: " +:+ PyStr.join ", " missing) c)
  ∧ required ⊆ PyStr.strip <$> columns table_without_weight
  ∧ ("Gewicht" ∉ PyStr.strip <$> columns table_without_weight)
  ∧ ∃ qs, load_questions sample_python required table_without_weight = Ok qs
          ∧ length qs = 2%nat
          ∧ Forall (λ q, weight q = 1%Q) qs.
Proof.
  assert (¬ required ⊆ PyStr.strip <$> columns table_without_type) as Hn.
  { intros H. specialize (H "Typ"). vm_compute in H.
    assert ("Typ" ∈ ["Frage"; "Antwortmöglichkeiten"; "Richtige Antworten"]) as Hin.
    { apply H. right. left. }
    repeat (apply elem_of_cons in Hin as [Hin|Hin]; [discriminate Hin|]).
    inversion Hin. }
  assert (required ⊆ PyStr.strip <$> columns table_without_weight) as Hreq.
  { apply (bool_decide_unpack _). vm_compute. exact I. }
  assert ("Gewicht" ∉ PyStr.strip <$> columns table_without_weight) as Hg.
  { apply (bool_decide_unpack _). vm_compute. exact I. }
  pose proof (C4_missing_column_schema_error sample_python required
                (reflexivity required)) as [Hmissing Hpresent].
  split; [reflexivity|]. split; [exact Hn|].
  split; [exact (Hmissing table_without_type Hn)|].
  split; [exact Hreq|]. split; [exact Hg|].
  destruct (Hpresent table_without_weight Hreq) as (_ & _ & Hweight).
  eexists. split; [vm_compute; reflexivity|].
  apply (Hweight Hg). vm_compute. reflexivity.
Defined.

Example missing_type_message :
  load_questions sample_python required table_without_type
  = Raise (ValueError_columns "Fehlende Spalten: Typ").
Proof. vm_compute. reflexivity. Qed.

Example weight_not_required :
  load_questions sample_python required table_without_weight
  = Ok [Question_open "Capital?" "Paris" 1;
        Question_mc "Colour?" ["Red"; "Blue"] ["Red"; "Green"; "Blue"] 1].
Proof. vm_compute. reflexivity. Qed.



(** Weights 1 and 2 with grades 1/2 and 1 total 5/2. *)
Example two_questions_total :
  ∃ sc, scores two_answers two_questions = Ok sc
        ∧ PyDict.keys sc = ["Letters?"; "Capital?"]
        ∧ (Total sc == 5 # 2)%Q.
Proof.
  eexists. split; [vm_compute; reflexivity|]. split; reflexivity.
Qed.

(** Two questions under one prompt, which the data model excludes: the
    mapping keeps one entry, that of the later question. *)
Example same_prompt_total :
  ∃ sc, scores same_prompt_answers same_prompt_questions = Ok sc
        ∧ PyDict.keys sc = ["Capital?"]
        ∧ (Total sc == 2)%Q.
Proof.
  eexists. split; [vm_compute; reflexivity|]. split; reflexivity.
Qed.

(** * Further properties of the graders *)

(** ** Characters *)

Lemma lower_char_idem (c : ascii) :
  PyStr.lower_char (PyStr.lower_char c) = PyStr.lower_char c.
Proof. destruct c as [[] [] [] [] [] [] [] []]; reflexivity. Qed.

Lemma is_space_lower_char (c : ascii) :
  PyStr.is_space (PyStr.lower_char c) = PyStr.is_space c.
Proof. destruct c as [[] [] [] [] [] [] [] []]; reflexivity. Qed.

Lemma lower_char_bar (c : ascii) :
  PyStr.lower_char c = "|"%char ↔ c = "|"%char.
Proof.
  split; [|intros ->; reflexivity].
  destruct c as [[] [] [] [] [] [] [] []]; intros H;
    first [reflexivity | discriminate H].
Qed.

(** ** Lowercasing against stripping and splitting *)

Lemma lower_idem (s : string) : PyStr.lower (PyStr.lower s) = PyStr.lower s.
Proof.
  induction s as [|c s IH]; [reflexivity|].
  simpl. by rewrite lower_char_idem, IH.
Qed.

Lemma lower_empty (s : string) : PyStr.lower s = "" ↔ s = "".
Proof. destruct s; simpl; split; congruence. Qed.

Lemma lstrip_lower (s : string) :
  PyStr.lstrip (PyStr.lower s) = PyStr.lower (PyStr.lstrip s).
Proof.
  induction s as [|c s IH]; [reflexivity|].
  simpl. rewrite is_space_lower_char.
  destruct (PyStr.is_space c); [exact IH|reflexivity].
Qed.

Lemma rstrip_lower (s : string) :
  PyStr.rstrip (PyStr.lower s) = PyStr.lower (PyStr.rstrip s).
Proof.
  induction s as [|c s IH]; [reflexivity|].
  simpl. rewrite IH, is_space_lower_char.
  destruct (PyStr.rstrip s) as [|a r]; simpl.
  - destruct (PyStr.is_space c); reflexivity.
  - reflexivity.
Qed.

Lemma strip_lower (s : string) :
  PyStr.strip (PyStr.lower s) = PyStr.lower (PyStr.strip s).
Proof. unfold PyStr.strip. by rewrite lstrip_lower, rstrip_lower. Qed.

Lemma norm_lower (s : string) : norm (PyStr.lower s) = norm s.
Proof. unfold norm. by rewrite strip_lower, lower_idem. Qed.

Lemma split_lower (s : string) :
  PyStr.split "|"%char (PyStr.lower s)
  = PyStr.lower <$> PyStr.split "|"%char s.
Proof.
  induction s as [|c s IH]; [reflexivity|].
  simpl. rewrite IH.
  destruct (decide (c = "|"%char)) as [->|Hne].
  - reflexivity.
  - destruct (decide (PyStr.lower_char c = "|"%char)) as [He|_].
    + destruct Hne. apply lower_char_bar, He.
    + destruct (PyStr.split "|"%char s); reflexivity.
Qed.

Lemma filter_nonempty_lower (l : list string) :
  filter (λ a, a ≠ "") (PyStr.lower <$> l)
  = PyStr.lower <$> filter (λ a, a ≠ "") l.
Proof.
  induction l as [|a l IH]; [reflexivity|].
  rewrite fmap_cons, !filter_cons, IH.
  destruct (decide (a ≠ "")) as [Ha|Ha];
    destruct (decide (PyStr.lower a ≠ "")) as [Hl|Hl]; try reflexivity.
  - destruct Hl. intros Hl. apply Ha, lower_empty, Hl.
  - destruct Ha. intros Ha. apply Hl. by rewrite Ha.
Qed.

Lemma user_set_lower (ans : string) :
  user_set (PyStr.lower ans) = user_set ans.
Proof.
  unfold user_set. rewrite split_lower, filter_nonempty_lower.
  rewrite <- list_fmap_compose. f_equal.
  apply list_fmap_ext. intros _ a _. apply norm_lower.
Qed.

Lemma correct_set_lower (corr : list string) :
  correct_set (PyStr.lower <$> corr) = correct_set corr.
Proof.
  unfold correct_set. rewrite <- list_fmap_compose. f_equal.
  apply list_fmap_ext. intros _ a _. apply norm_lower.
Qed.

Lemma mc_grader_lower (ans : string) (corr : list string) :
  mc_grader (PyStr.lower ans) corr = mc_grader ans corr.
Proof.
  unfold mc_grader. rewrite user_set_lower.
  destruct (decide (ans = "")) as [->|Ha]; [reflexivity|].
  destruct (decide (PyStr.lower ans = "")) as [Hl|_]; [|reflexivity].
  destruct Ha. apply lower_empty, Hl.
Qed.

Lemma open_grader_lower (ans corr : string) :
  open_grader (PyStr.lower ans) corr = open_grader ans corr.
Proof.
  unfold open_grader. fold (norm (PyStr.lower ans)). rewrite norm_lower.
  reflexivity.
Qed.

(** X1. Grading ignores letter case: two answers that differ only in the
    case of their letters get the same grade from either grader, and so do
    two lists of correct labels or two reference texts. *)
Theorem X1_grading_ignores_case :
  (∀ ans ans' corr, PyStr.lower ans = PyStr.lower ans' →
     mc_grader ans corr = mc_grader ans' corr)
  ∧ (∀ ans corr corr', PyStr.lower <$> corr = PyStr.lower <$> corr' →
       mc_grader ans corr = mc_grader ans corr')
  ∧ (∀ ans ans' corr, PyStr.lower ans = PyStr.lower ans' →
       open_grader ans corr = open_grader ans' corr)
  ∧ (∀ ans corr corr', PyStr.lower corr = PyStr.lower corr' →
       open_grader ans corr = open_grader ans corr').
Proof.
  split; [|split; [|split]].
  - intros ans ans' corr H.
    rewrite <- (mc_grader_lower ans), <- (mc_grader_lower ans'), H. reflexivity.
  - intros ans corr corr' H. unfold mc_grader.
    rewrite <- (correct_set_lower corr), <- (correct_set_lower corr'), H.
    reflexivity.
  - intros ans ans' corr H.
    rewrite <- (open_grader_lower ans), <- (open_grader_lower ans'), H.
    reflexivity.
  - intros ans corr corr' H. unfold open_grader.
    fold (norm corr) (norm corr').
    rewrite <- (norm_lower corr), <- (norm_lower corr'), H. reflexivity.
Qed.

(** ** The value of a multiple-choice grade *)

Lemma ratio_eq_one (a b : nat) :
  (0 < b)%nat →
  (inject_Z (Z.of_nat a) / inject_Z (Z.of_nat b) == 1)%Q → a = b.
Proof.
  intros Hb H.
  assert (¬ (inject_Z (Z.of_nat b) == 0)%Q) as Hnz.
  { change 0%Q with (inject_Z 0). rewrite inject_Z_injective. lia. }
  apply Nat2Z.inj, inject_Z_injective.
  rewrite <- (Qmult_div_r (inject_Z (Z.of_nat a)) (inject_Z (Z.of_nat b)) Hnz).
  rewrite H. apply Qmult_1_r.
Qed.

Lemma ratio_pos (a b : nat) :
  (0 < b)%nat →
  (0 < inject_Z (Z.of_nat a) / inject_Z (Z.of_nat b))%Q ↔ (0 < a)%nat.
Proof.
  intros Hb.
  assert (0 < inject_Z (Z.of_nat b))%Q as Hpos.
  { change 0%Q with (inject_Z 0). rewrite <- Zlt_Qlt. lia. }
  split.
  - intros H. destruct a as [|a]; [|lia].
    exfalso. revert H. apply Qle_not_lt. discriminate.
  - intros Ha. apply Qlt_shift_div_l; [exact Hpos|].
    rewrite Qmult_0_l. change 0%Q with (inject_Z 0). rewrite <- Zlt_Qlt. lia.
Qed.

Lemma user_set_empty_answer : user_set "" = ∅.
Proof. reflexivity. Qed.

(** The grade in one formula: the quotient when the answer is not empty, its
    selection lies within the correct set and that set is not empty; 0
    otherwise. *)
Lemma mc_grader_value (ans : string) (corr : list string) :
  mc_grader ans corr
  = if decide (ans ≠ "" ∧ user_set ans ⊆ correct_set corr
               ∧ correct_set corr ≠ ∅)
    then Ok (inject_Z (Z.of_nat (size (user_set ans)))
             / inject_Z (Z.of_nat (size (correct_set corr))))%Q
    else Ok 0%Q.
Proof.
  destruct (decide _) as [(Ha & Hsub & Hc)|Hn].
  - apply mc_grader_subset; assumption.
  - destruct (decide (ans = "")) as [->|Ha]; [reflexivity|].
    destruct (decide (user_set ans ⊆ correct_set corr)) as [Hsub|Hsub];
      [|apply mc_grader_wrong, Hsub].
    destruct (decide (correct_set corr = ∅)) as [Hc|Hc];
      [apply mc_grader_no_correct, Hc|].
    destruct Hn. auto.
Qed.

Lemma full_credit_exact (ans : string) (corr : list string) :
  returns (mc_grader ans corr) 1 →
  user_set ans = correct_set corr ∧ correct_set corr ≠ ∅.
Proof.
  rewrite mc_grader_value. intros (s & Hs & H1).
  destruct (decide _) as [(Ha & Hsub & Hc)|_].
  - injection Hs as <-. split; [|exact Hc].
    apply ratio_eq_one in H1; [|apply size_pos_nonempty, Hc].
    apply set_subseteq_size_eq; [exact Hsub|lia].
  - injection Hs as <-. discriminate H1.
Qed.

Lemma exact_full_credit (ans : string) (corr : list string) :
  user_set ans = correct_set corr → correct_set corr ≠ ∅ →
  returns (mc_grader ans corr) 1.
Proof.
  intros HU Hc. rewrite mc_grader_value.
  assert (ans ≠ "") as Ha.
  { intros ->. rewrite user_set_empty_answer in HU. congruence. }
  destruct (decide _) as [_|Hn].
  - eexists. split; [reflexivity|]. rewrite HU.
    apply Qmult_inv_r. change 0%Q with (inject_Z 0).
    rewrite inject_Z_injective. pose proof (size_pos_nonempty _ Hc). lia.
  - destruct Hn. rewrite HU. auto.
Qed.

(** X2. A multiple-choice answer earns the full grade 1 exactly when its
    selection set equals the set of correct answers and that set is not
    empty. *)
Theorem X2_full_credit_iff_exact (ans : string) (corr : list string) :
  returns (mc_grader ans corr) 1
  ↔ user_set ans = correct_set corr ∧ correct_set corr ≠ ∅.
Proof.
  split.
  - apply full_credit_exact.
  - intros [HU Hc]. apply exact_full_credit; assumption.
Qed.

(** X3. A multiple-choice answer earns a positive grade exactly when it
    selects at least one option and every selected option is correct. *)
Theorem X3_positive_credit_iff (ans : string) (corr : list string) :
  (∃ s, mc_grader ans corr = Ok s ∧ (0 < s)%Q)
  ↔ user_set ans ≠ ∅ ∧ user_set ans ⊆ correct_set corr.
Proof.
  rewrite mc_grader_value. split.
  - intros (s & Hs & Hpos).
    destruct (decide _) as [(Ha & Hsub & Hc)|_].
    + injection Hs as <-. split; [|exact Hsub].
      apply ratio_pos in Hpos; [|apply size_pos_nonempty, Hc].
      intros HU. rewrite HU, size_empty in Hpos. lia.
    + injection Hs as <-. discriminate Hpos.
  - intros [HU Hsub].
    assert (ans ≠ "") as Ha.
    { intros ->. apply HU, user_set_empty_answer. }
    assert (correct_set corr ≠ ∅) as Hc.
    { intros Hc. apply HU. rewrite Hc in Hsub. apply leibniz_equiv.
      apply equiv_empty. exact Hsub. }
    destruct (decide _) as [_|Hn]; [|destruct Hn; auto].
    eexists. split; [reflexivity|].
    apply ratio_pos; apply size_pos_nonempty; assumption.
Qed.

(** ** Selections and the answer text of the form *)

Lemma has_char_cons (x c : ascii) (s : string) :
  has_char x (String c s) ↔ x = c ∨ has_char x s.
Proof. unfold has_char. simpl. apply elem_of_cons. Qed.

Lemma has_char_empty (x : ascii) : ¬ has_char x "".
Proof. unfold has_char. simpl. apply not_elem_of_nil. Qed.

Lemma split_no_sep (sep : ascii) (s : string) :
  ¬ has_char sep s → PyStr.split sep s = [s].
Proof.
  induction s as [|c s IH]; [reflexivity|].
  rewrite has_char_cons. intros H. simpl.
  destruct (decide (c = sep)) as [->|_]; [destruct H; auto|].
  rewrite IH by auto. reflexivity.
Qed.

Lemma split_app_sep (sep : ascii) (x rest : string) :
  ¬ has_char sep x →
  PyStr.split sep (x +:+ String sep rest) = x :: PyStr.split sep rest.
Proof.
  induction x as [|c x IH].
  - intros _. change ("" +:+ String sep rest) with (String sep rest). simpl.
    destruct (decide (sep = sep)); [reflexivity|congruence].
  - rewrite has_char_cons. intros H.
    change (String c x +:+ String sep rest)
      with (String c (x +:+ String sep rest)).
    simpl. destruct (decide (c = sep)) as [->|_]; [destruct H; auto|].
    rewrite IH by auto. reflexivity.
Qed.

Lemma split_join (sep : ascii) (l : list string) :
  l ≠ [] → Forall (λ x, ¬ has_char sep x) l →
  PyStr.split sep (PyStr.join (String sep "") l) = l.
Proof.
  intros Hne Hl. induction Hl as [|x l Hx Hl IH]; [congruence|].
  destruct l as [|y l].
  - apply split_no_sep, Hx.
  - change (PyStr.join (String sep "") (x :: y :: l))
      with (x +:+ String sep "" +:+ PyStr.join (String sep "") (y :: l)).
    change (String sep "" +:+ PyStr.join (String sep "") (y :: l))
      with (String sep (PyStr.join (String sep "") (y :: l))).
    rewrite split_app_sep by exact Hx. rewrite IH by discriminate.
    reflexivity.
Qed.

Lemma split_segments (sep : ascii) (s : string) :
  Forall (λ w, ¬ has_char sep w) (PyStr.split sep s).
Proof.
  induction s as [|c s IH]; simpl.
  - constructor; [apply has_char_empty|constructor].
  - destruct (decide (c = sep)) as [->|Hne].
    + constructor; [apply has_char_empty|exact IH].
    + destruct (PyStr.split sep s) as [|w ws].
      * constructor; [|constructor]. rewrite has_char_cons.
        intros [->|H]; [congruence|by apply has_char_empty in H].
      * inversion IH as [|? ? Hw Hws]; subst. constructor; [|exact Hws].
        rewrite has_char_cons. intros [->|H]; [congruence|auto].
Qed.

Lemma join_nonempty (sep x : string) (l : list string) :
  x ≠ "" → PyStr.join sep (x :: l) ≠ "".
Proof.
  intros Hx. destruct x as [|c x]; [congruence|].
  destruct l; [discriminate|].
  change (PyStr.join sep (String c x :: s :: l))
    with (String c (x +:+ sep +:+ PyStr.join sep (s :: l))).
  discriminate.
Qed.

Lemma filter_nonempty_id (l : list string) :
  Forall (λ x, x ≠ "") l → filter (λ a, a ≠ "") l = l.
Proof.
  induction 1 as [|x l Hx _ IH]; [reflexivity|].
  rewrite filter_cons, IH. destruct (decide (x ≠ "")); [reflexivity|contradiction].
Qed.

Lemma user_set_join (sel : list string) :
  Forall (λ x, x ≠ "" ∧ ¬ has_char "|"%char x) sel →
  user_set (PyStr.join "|" sel) = list_to_set (norm <$> sel).
Proof.
  intros Hsel. destruct sel as [|x sel]; [reflexivity|].
  unfold user_set. rewrite split_join.
  - rewrite filter_nonempty_id; [reflexivity|].
    eapply Forall_impl; [exact Hsel|]. intros y [Hy _]. exact Hy.
  - discriminate.
  - eapply Forall_impl; [exact Hsel|]. intros y [_ Hy]. exact Hy.
Qed.

(** X4. The answer text the form stores for a selection of labels, none
    empty and none holding ['|'], splits back into exactly that selection,
    and its selection set is the set of the normalised labels. *)
Theorem X4_selection_round_trip (sel : list string) :
  Forall (λ x, x ≠ "" ∧ ¬ has_char "|"%char x) sel →
  (sel ≠ [] → PyStr.split "|"%char (PyStr.join "|" sel) = sel)
  ∧ (PyStr.join "|" sel = "" ↔ sel = [])
  ∧ user_set (PyStr.join "|" sel) = list_to_set (norm <$> sel).
Proof.
  intros Hsel. split; [|split].
  - intros Hne. apply split_join; [exact Hne|].
    eapply Forall_impl; [exact Hsel|]. intros y [_ Hy]. exact Hy.
  - split; [|intros ->; reflexivity].
    destruct sel as [|x sel]; [reflexivity|].
    intros H. inversion Hsel as [|? ? [Hx _] _]; subst.
    destruct (join_nonempty "|" x sel Hx H).
  - apply user_set_join, Hsel.
Qed.

Lemma mc_grader_join_nonempty (sel : list string) (corr : list string) :
  Forall (λ x, x ≠ "" ∧ ¬ has_char "|"%char x) sel →
  mc_grader (PyStr.join "|" sel) corr
  = if decide (sel ≠ [] ∧ list_to_set (norm <$> sel) ⊆ correct_set corr
               ∧ correct_set corr ≠ ∅)
    then Ok (inject_Z (Z.of_nat (size (list_to_set (norm <$> sel) : gset string)))
             / inject_Z (Z.of_nat (size (correct_set corr))))%Q
    else Ok 0%Q.
Proof.
  intros Hsel. rewrite mc_grader_value, (user_set_join sel Hsel).
  destruct sel as [|x sel].
  - destruct (decide _) as [(Ha & _)|_]; [destruct Ha; reflexivity|].
    destruct (decide _) as [(Ha & _)|_]; [congruence|reflexivity].
  - inversion Hsel as [|? ? [Hx _] _]; subst.
    pose proof (join_nonempty "|" x sel Hx) as Hne.
    destruct (decide _) as [(_ & Hsub & Hc)|Hn];
      destruct (decide _) as [(_ & Hsub' & Hc')|Hn']; try reflexivity.
    + destruct Hn'. split; [discriminate|]. auto.
    + destruct Hn. auto.
Qed.

(** X5. The order in which options are ticked does not matter: two
    selections with the same labels in different orders, none empty and
    none holding ['|'], get the same grade. *)
Theorem X5_selection_order_irrelevant (sel sel' corr : list string) :
  sel ≡ₚ sel' →
  Forall (λ x, x ≠ "" ∧ ¬ has_char "|"%char x) sel →
  mc_grader (PyStr.join "|" sel) corr = mc_grader (PyStr.join "|" sel') corr.
Proof.
  intros Hp Hsel.
  assert (Forall (λ x, x ≠ "" ∧ ¬ has_char "|"%char x) sel') as Hsel'.
  { rewrite <- Hp. exact Hsel. }
  rewrite !mc_grader_join_nonempty by assumption.
  assert ((list_to_set (norm <$> sel) : gset string)
          = list_to_set (norm <$> sel')) as ->.
  { apply leibniz_equiv. rewrite Hp. reflexivity. }
  destruct (decide _) as [(Hne & Hrest)|Hn];
    destruct (decide _) as [(Hne' & Hrest')|Hn']; try reflexivity.
  - destruct Hn'. split; [|exact Hrest].
    intros ->. apply Hne, Permutation_nil_r, Hp.
  - destruct Hn. split; [|exact Hrest'].
    intros ->. apply Hne'. symmetry. apply Permutation_nil_l, Hp.
Qed.

(** X6. Ticking exactly the correct options, in any order, earns the full
    grade 1, provided the question has a correct label and no correct label
    is empty or holds ['|']. *)
Theorem X6_exact_selection_full_credit (sel corr : list string) :
  corr ≠ [] →
  Forall (λ x, x ≠ "" ∧ ¬ has_char "|"%char x) corr →
  sel ≡ₚ corr →
  returns (mc_grader (PyStr.join "|" sel) corr) 1.
Proof.
  intros Hne Hcorr Hp.
  assert (Forall (λ x, x ≠ "" ∧ ¬ has_char "|"%char x) sel) as Hsel.
  { rewrite Hp. exact Hcorr. }
  apply exact_full_credit.
  - rewrite (user_set_join sel Hsel). unfold correct_set.
    apply leibniz_equiv. rewrite Hp. reflexivity.
  - destruct corr as [|c corr]; [congruence|].
    unfold correct_set. rewrite fmap_cons. simpl.
    intros H. apply (not_elem_of_empty (C:=gset string) (norm c)).
    rewrite <- H. apply elem_of_union_l, elem_of_singleton. reflexivity.
Qed.

(** ** Characters kept and dropped by stripping *)

Lemma lstrip_sub (x : ascii) (s : string) :
  has_char x (PyStr.lstrip s) → has_char x s.
Proof.
  induction s as [|c s IH]; [auto|]. simpl.
  destruct (PyStr.is_space c); [|auto].
  intros H. apply has_char_cons. right. apply IH, H.
Qed.

Lemma rstrip_sub (x : ascii) (s : string) :
  has_char x (PyStr.rstrip s) → has_char x s.
Proof.
  induction s as [|c s IH]; [auto|]. simpl.
  destruct (PyStr.rstrip s) as [|a r].
  - destruct (PyStr.is_space c).
    + intros H. by apply has_char_empty in H.
    + rewrite !has_char_cons. intros [->|H]; [auto|].
      by apply has_char_empty in H.
  - rewrite (has_char_cons x c (String a r)), (has_char_cons x c s).
    intros [->|H]; auto.
Qed.

Lemma strip_sub (x : ascii) (s : string) :
  has_char x (PyStr.strip s) → has_char x s.
Proof. intros H. apply lstrip_sub, rstrip_sub, H. Qed.

Lemma lstrip_keep (x : ascii) (s : string) :
  PyStr.is_space x = false → has_char x s → has_char x (PyStr.lstrip s).
Proof.
  intros Hx. induction s as [|c s IH]; [auto|]. simpl.
  destruct (PyStr.is_space c) eqn:Hc; [|auto].
  rewrite has_char_cons. intros [->|H]; [congruence|apply IH, H].
Qed.

Lemma rstrip_keep (x : ascii) (s : string) :
  PyStr.is_space x = false → has_char x s → has_char x (PyStr.rstrip s).
Proof.
  intros Hx. induction s as [|c s IH]; [auto|]. simpl.
  rewrite has_char_cons. intros [->|H].
  - destruct (PyStr.rstrip s); [rewrite Hx|]; apply has_char_cons; auto.
  - specialize (IH H). destruct (PyStr.rstrip s) as [|a r].
    + by apply has_char_empty in IH.
    + apply has_char_cons. auto.
Qed.

Lemma strip_keep (x : ascii) (s : string) :
  PyStr.is_space x = false → has_char x s → has_char x (PyStr.strip s).
Proof. intros Hx H. apply rstrip_keep, lstrip_keep; assumption. Qed.

Lemma has_bar_lower (s : string) :
  has_char "|"%char (PyStr.lower s) ↔ has_char "|"%char s.
Proof.
  induction s as [|c s IH]; [reflexivity|]. simpl.
  rewrite !has_char_cons, IH. split; intros [H|H]; auto; left.
  - symmetry. apply lower_char_bar. auto.
  - symmetry. apply lower_char_bar. auto.
Qed.

Lemma has_bar_norm (s : string) :
  has_char "|"%char (norm s) ↔ has_char "|"%char s.
Proof.
  unfold norm. rewrite has_bar_lower. split.
  - apply strip_sub.
  - apply strip_keep. reflexivity.
Qed.

Lemma elem_of_user_set (ans x : string) :
  x ∈ user_set ans
  ↔ ∃ seg, seg ∈ PyStr.split "|"%char ans ∧ seg ≠ "" ∧ x = norm seg.
Proof.
  unfold user_set. rewrite elem_of_list_to_set, list_elem_of_fmap. split.
  - intros (seg & -> & Hseg). apply list_elem_of_filter in Hseg as [Hne Hin].
    eauto.
  - intros (seg & Hin & Hne & ->). exists seg. split; [reflexivity|].
    apply list_elem_of_filter. auto.
Qed.

Lemma user_set_no_bar (ans x : string) :
  x ∈ user_set ans → ¬ has_char "|"%char x.
Proof.
  intros H. apply elem_of_user_set in H as (seg & Hin & _ & ->).
  rewrite has_bar_norm.
  pose proof (split_segments "|"%char ans) as Hsegs.
  rewrite Forall_forall in Hsegs. apply Hsegs, Hin.
Qed.

(** X7. A question one of whose correct labels holds the character ['|']
    can never be answered with the full grade: whatever the answer text, the
    grade is below 1, since no element of a selection set holds ['|']. *)
Theorem X7_bar_in_label_blocks_full_credit (ans c : string)
    (corr : list string) :
  c ∈ corr → has_char "|"%char c → ¬ returns (mc_grader ans corr) 1.
Proof.
  intros Hc Hbar Hfull. apply full_credit_exact in Hfull as [HU _].
  apply (user_set_no_bar ans (norm c)).
  - rewrite HU. unfold correct_set. apply elem_of_list_to_set.
    apply list_elem_of_fmap. eauto.
  - apply has_bar_norm, Hbar.
Qed.

(** ** Stripping twice *)

Lemma lstrip_head (s : string) : no_blank_head (PyStr.lstrip s).
Proof.
  induction s as [|c s IH]; [exact I|]. simpl.
  destruct (PyStr.is_space c) eqn:E; [exact IH|exact E].
Qed.

Lemma rstrip_head (s : string) :
  no_blank_head s → no_blank_head (PyStr.rstrip s).
Proof.
  destruct s as [|c s]; [auto|]. simpl. intros Hc.
  destruct (PyStr.rstrip s); [rewrite Hc|]; exact Hc.
Qed.

Lemma lstrip_fixed (s : string) : no_blank_head s → PyStr.lstrip s = s.
Proof. destruct s as [|c s]; [auto|]. simpl. by intros ->. Qed.

Lemma rstrip_idem (s : string) :
  PyStr.rstrip (PyStr.rstrip s) = PyStr.rstrip s.
Proof.
  induction s as [|c s IH]; [reflexivity|]. simpl.
  destruct (PyStr.rstrip s) as [|a r] eqn:E.
  - destruct (PyStr.is_space c) eqn:Ec; [reflexivity|].
    simpl. by rewrite Ec.
  - change (PyStr.rstrip (String c (String a r)))
      with (match PyStr.rstrip (String a r) with
            | "" => if PyStr.is_space c then "" else String c ""
            | r' => String c r'
            end).
    rewrite IH. reflexivity.
Qed.

Lemma strip_idem (s : string) : PyStr.strip (PyStr.strip s) = PyStr.strip s.
Proof.
  unfold PyStr.strip at 1.
  rewrite lstrip_fixed.
  - unfold PyStr.strip. apply rstrip_idem.
  - apply rstrip_head, lstrip_head.
Qed.

(** * Further properties of the parser *)

Lemma labels_clean (field : string) : Forall clean_label (labels field).
Proof.
  apply Forall_forall. intros o Ho. unfold labels in Ho.
  apply list_elem_of_filter in Ho as [Hne Ho].
  apply list_elem_of_fmap in Ho as (w & -> & Hw).
  split; [exact Hne|]. split; [apply strip_idem|].
  intros H. apply strip_sub in H.
  pose proof (split_segments ";"%char field) as Hsegs.
  rewrite Forall_forall in Hsegs. exact (Hsegs w Hw H).
Qed.

Lemma select_subseteq (opts : list string) (idx : list Z) :
  select opts idx ⊆ opts.
Proof.
  intros o Ho. unfold select in Ho.
  apply list_elem_of_omap in Ho as (i & _ & Hi).
  destruct (decide _); [|discriminate].
  eapply list_elem_of_lookup_2, Hi.
Qed.

Section ParserInvariants.

Variable py : Runtime.

(** What a successful [row_question] has read. *)
Lemma row_question_inv (row : gmap string string) (q : Question) :
  row_question py row = Ok q →
  ∃ typ frage richtige w,
    row !! "Typ" = Some typ ∧ row !! "Frage" = Some frage
    ∧ row !! "Richtige Antworten" = Some richtige
    ∧ row_weight py row = Ok w
    ∧ if decide (PyStr.lower (PyStr.strip typ) = "mc")
      then ∃ moegl corr,
             row !! "Antwortmöglichkeiten" = Some moegl
             ∧ q = Question_mc (PyStr.strip frage) corr (labels moegl) w
             ∧ if py_isdigit py
                    (PyStr.remove_char ";"%char (PyStr.strip richtige))
               then ∃ idx, index_list (py_int py) (PyStr.strip richtige)
                           = Ok idx
                           ∧ corr = select (labels moegl) idx
               else corr = labels richtige
      else q = Question_open (PyStr.strip frage) (PyStr.strip richtige) w.
Proof.
  unfold row_question, getitem. intros H.
  destruct (row !! "Typ") as [typ|]; [|discriminate]. cbn [bind] in H.
  destruct (row !! "Frage") as [frage|]; [|discriminate]. cbn [bind] in H.
  destruct (row_weight py row) as [w|]; [|discriminate]. cbn [bind] in H.
  destruct (row !! "Richtige Antworten") as [richtige|]; [|discriminate].
  cbn [bind] in H. exists typ, frage, richtige, w. repeat (split; [reflexivity|]).
  destruct (decide _); [|congruence].
  destruct (row !! "Antwortmöglichkeiten") as [moegl|]; [|discriminate].
  cbn [bind] in H. destruct (py_isdigit py _).
  - destruct (index_list (py_int py) (PyStr.strip richtige)) as [idx|];
      [|discriminate].
    cbn [bind] in H. injection H as <-. eauto 10.
  - injection H as <-. eauto 10.
Qed.

(** X8. Every question the parser returns is normalised: its prompt is
    stripped; the options and the correct labels of a multiple-choice
    question are non-empty, stripped and free of [';'], and when the correct
    answers were given as positions each of them is one of the options; the
    reference text of an open question is stripped. *)
Theorem X8_parsed_question_normalised (row : gmap string string)
    (q : Question) :
  row_question py row = Ok q →
  PyStr.strip (prompt q) = prompt q
  ∧ match q with
    | Question_mc _ corr opts _ =>
        Forall clean_label opts ∧ Forall clean_label corr
        ∧ ∀ richtige, row !! "Richtige Antworten" = Some richtige →
            py_isdigit py (PyStr.remove_char ";"%char (PyStr.strip richtige))
            = true →
            corr ⊆ opts
    | Question_open _ corr _ => PyStr.strip corr = corr
    end.
Proof.
  intros H.
  apply row_question_inv in H
    as (typ & frage & richtige & w & _ & _ & Hrichtige & _ & H).
  destruct (decide _).
  - destruct H as (moegl & corr & _ & -> & H). simpl.
    split; [apply strip_idem|]. split; [apply labels_clean|].
    destruct (py_isdigit py _) eqn:Hd.
    + destruct H as (idx & _ & ->). split.
      * pose proof (labels_clean moegl) as Hopts.
        rewrite Forall_forall in Hopts. apply Forall_forall.
        intros o Ho. apply Hopts, (select_subseteq _ _ _ Ho).
      * intros _ _ _. apply select_subseteq.
    + subst corr. split; [apply labels_clean|].
      intros richtige' Hr' Hd'. congruence.
  - subst q. simpl. split; apply strip_idem.
Qed.

Lemma row_question_same_fields (row row' : gmap string string) :
  same_fields row row' →
  row_question py row = row_question py row'.
Proof.
  intros H. unfold row_question, row_weight, getitem.
  rewrite (H "Typ"), (H "Frage"), (H "Gewicht"), (H "Richtige Antworten"),
    (H "Antwortmöglichkeiten") by (unfold required; set_solver).
  reflexivity.
Qed.

Lemma mapM_ext_Forall2 {A B : Type} (f : A → result B) (l l' : list A) :
  Forall2 (λ x x', f x = f x') l l' → mapM f l = mapM f l'.
Proof. induction 1 as [|x x' l l' Hx _ IH]; simpl; [reflexivity|]. by rewrite Hx, IH. Qed.

(** X9. Only the columns Typ, Frage, Gewicht, Richtige Antworten and
    Antwortmöglichkeiten influence parsing: two tables whose rows agree,
    row by row, on these five columns parse to the same result, whatever
    other columns they hold and in whatever column order. *)
Theorem X9_other_columns_ignored (df df' : DataFrame) :
  Forall2 same_fields (iterrows df) (iterrows df') →
  _df_to_questions py df = _df_to_questions py df'.
Proof.
  intros H. rewrite !_df_to_questions_mapM. apply mapM_ext_Forall2.
  eapply Forall2_impl; [exact H|]. apply row_question_same_fields.
Qed.

Variable required_iter : list string.

(** X10. Blanks around the column labels do not matter: a table loads as
    the table with stripped labels does. *)
Theorem X10_header_blanks_ignored (df : DataFrame) :
  load_questions py required_iter df
  = load_questions py required_iter
      {| columns := PyStr.strip <$> columns df; data := data df |}.
Proof.
  unfold load_questions. cbn [columns data].
  assert (PyStr.strip <$> (PyStr.strip <$> columns df)
          = PyStr.strip <$> columns df) as ->; [|reflexivity].
  rewrite <- list_fmap_compose. apply list_fmap_ext.
  intros _ c _. apply strip_idem.
Qed.

(** X11. Loading a table in which every row has one cell per column and
    the stripped column labels are distinct fails in three ways only: with
    the missing-columns error, with the [ValueError] of [float] on a weight
    cell, or with the [ValueError] of [int] on a segment of an index field
    that passed [isdigit]. No lookup of a column raises [KeyError]. (Under a
    repeated label pandas hands [float] a Series, which is outside this
    model of a row.) *)
Theorem X11_load_errors (df : DataFrame) (e : exn) :
  well_formed df →
  NoDup (PyStr.strip <$> columns df) →
  load_questions py required_iter df = Raise e →
  (∃ msg, e = ValueError_columns msg
          ∧ ¬ required ⊆ PyStr.strip <$> columns df)
  ∨ (∃ s, e = ValueError_float s ∧ py_float py s = None)
  ∨ (∃ seg, e = ValueError_int seg ∧ py_int py seg = None).
Proof.
  intros Hwf _. unfold load_questions. cbn [columns].
  destruct (decide _) as [Hreq|Hn]; [|intros [= <-]; eauto].
  rewrite _df_to_questions_mapM. intros H.
  apply mapM_Raise_inv in H as (row & Hrow & He). right.
  apply row_question_errors in He
    as [(k & Hk & Hnone & _)|[(s & _ & Hf & ->)|(r & seg & _ & _ & Hi & ->)]];
    [|eauto|eauto].
  unfold iterrows in Hrow. cbn [columns data] in Hrow.
  apply list_elem_of_fmap in Hrow as (cells & -> & Hcells).
  unfold well_formed in Hwf. rewrite Forall_forall in Hwf.
  destruct (row_lookup_column (PyStr.strip <$> columns df) cells k)
    as [v Hv]; [|apply Hreq, Hk|].
  - rewrite length_fmap. apply Hwf, Hcells.
  - rewrite Hv in Hnone. discriminate Hnone.
Qed.

End ParserInvariants.

(** * Further properties of the form and the score mapping *)

Lemma dict_get_keys {V : Type} (d : list (string * V)) (k : string) :
  is_Some (PyDict.get d k) ↔ k ∈ PyDict.keys d.
Proof.
  unfold PyDict.keys. induction d as [|[k' v'] d IH]; simpl.
  - split; [intros [? ?]; discriminate|intros H; by apply not_elem_of_nil in H].
  - rewrite elem_of_cons. destruct (decide (k' = k)) as [->|Hne].
    + split; eauto.
    + rewrite IH. split; [auto|]. intros [->|H]; [congruence|exact H].
Qed.

Lemma dict_keys_set {V : Type} (d : list (string * V)) (k : string) (v : V) :
  PyDict.keys (PyDict.set d k v)
  = if decide (k ∈ PyDict.keys d) then PyDict.keys d
    else (PyDict.keys d ++ [k])%list.
Proof.
  unfold PyDict.keys. induction d as [|[k' v'] d IH].
  - rewrite decide_False by apply not_elem_of_nil. reflexivity.
  - cbn [PyDict.set]. destruct (decide (k' = k)) as [->|Hne].
    + rewrite !fmap_cons. cbn [fst].
      rewrite decide_True by (by left). reflexivity.
    + rewrite !fmap_cons, IH. cbn [fst].
      destruct (decide (k ∈ d.*1)) as [Hin|Hnin].
      * rewrite decide_True by (by right). reflexivity.
      * rewrite decide_False; [reflexivity|].
        intros H. apply elem_of_cons in H as [->|H]; [congruence|contradiction].
Qed.

Lemma dict_set_NoDup {V : Type} (d : list (string * V)) (k : string) (v : V) :
  NoDup (PyDict.keys d) → NoDup (PyDict.keys (PyDict.set d k v)).
Proof.
  intros Hd. rewrite dict_keys_set. destruct (decide _) as [|Hn]; [exact Hd|].
  apply NoDup_app. split; [exact Hd|]. split.
  - intros x Hx Hk. apply list_elem_of_singleton in Hk as ->. contradiction.
  - apply NoDup_singleton.
Qed.

(** ** The score mapping over repeated prompts *)

Lemma scores_from_other (answers : list (string * string))
    (questions : list Question) (d sc : list (string * Q)) (p : string) :
  scores_from d answers questions = Ok sc →
  p ∉ prompt <$> questions → PyDict.get sc p = PyDict.get d p.
Proof.
  revert d. induction questions as [|q qs IH]; intros d H Hp.
  - injection H as <-. reflexivity.
  - simpl in H. apply bind_Ok in H as (s & _ & H).
    rewrite fmap_cons in Hp. apply not_elem_of_cons in Hp as [Hne Hp].
    rewrite (IH _ H Hp), dict_get_set.
    destruct (decide (prompt q = p)); [congruence|reflexivity].
Qed.

Lemma scores_from_last (answers : list (string * string))
    (pre post : list Question) (q : Question) (s : Q)
    (d sc : list (string * Q)) :
  scores_from d answers (pre ++ q :: post) = Ok sc →
  prompt q ∉ prompt <$> post →
  question_score answers q = Ok s →
  PyDict.get sc (prompt q) = Some s.
Proof.
  revert d. induction pre as [|q0 pre IH]; intros d H Hp Hs.
  - simpl in H. rewrite Hs in H. cbn [bind] in H.
    rewrite (scores_from_other _ _ _ _ _ H Hp), dict_get_set.
    destruct (decide (prompt q = prompt q)); [reflexivity|congruence].
  - simpl in H. apply bind_Ok in H as (s0 & _ & H). eapply IH; eassumption.
Qed.

Lemma scores_from_keys (answers : list (string * string))
    (questions : list Question) (d sc : list (string * Q)) :
  scores_from d answers questions = Ok sc →
  (NoDup (PyDict.keys d) → NoDup (PyDict.keys sc))
  ∧ ∀ p, p ∈ PyDict.keys sc ↔ p ∈ PyDict.keys d ∨ p ∈ prompt <$> questions.
Proof.
  revert d. induction questions as [|q qs IH]; intros d H.
  - injection H as <-. split; [auto|]. intros p. rewrite fmap_nil.
    split; [auto|]. intros [H|H]; [exact H|by apply not_elem_of_nil in H].
  - simpl in H. apply bind_Ok in H as (s & _ & H).
    destruct (IH _ H) as [Hnd Hdom]. split.
    + intros Hd. apply Hnd, dict_set_NoDup, Hd.
    + intros p. rewrite Hdom, fmap_cons, elem_of_cons, dict_keys_set.
      destruct (decide (prompt q ∈ PyDict.keys d)) as [Hin|Hnin].
      * split; [tauto|]. intros [H'|[->|H']]; auto.
      * rewrite elem_of_app, list_elem_of_singleton. tauto.
Qed.

(** X12. The score mapping over any list of questions, repeated prompts
    included: it has one entry per distinct prompt, and the entry under a
    prompt is the weighted score of the last question that carries it. *)
Theorem X12_scores_last_question_wins (answers : list (string * string))
    (questions : list Question) (sc : list (string * Q)) :
  scores answers questions = Ok sc →
  NoDup (PyDict.keys sc)
  ∧ (∀ p, p ∈ PyDict.keys sc ↔ p ∈ prompt <$> questions)
  ∧ ∀ pre q post s,
      questions = (pre ++ q :: post)%list →
      prompt q ∉ prompt <$> post →
      question_score answers q = Ok s →
      PyDict.get sc (prompt q) = Some s.
Proof.
  intros H. unfold scores in H.
  destruct (scores_from_keys _ _ _ _ H) as [Hnd Hdom]. split; [|split].
  - apply Hnd. constructor.
  - intros p. rewrite Hdom. split; [|auto].
    intros [Hp|Hp]; [by apply not_elem_of_nil in Hp|exact Hp].
  - intros pre q post s -> Hp Hs. eapply scores_from_last; eassumption.
Qed.

(** ** The answers of the form *)

Lemma answers_from_other (multiselect : nat → list string)
    (text_input : nat → string) (questions : list Question)
    (d : list (string * string)) (i : nat) (p : string) :
  p ∉ prompt <$> questions →
  PyDict.get (answers_from d multiselect text_input i questions) p
  = PyDict.get d p.
Proof.
  revert d i. induction questions as [|q qs IH]; intros d i Hp; [reflexivity|].
  rewrite fmap_cons in Hp. apply not_elem_of_cons in Hp as [Hne Hp].
  simpl. rewrite (IH _ _ Hp), dict_get_set.
  destruct (decide (prompt q = p)); [congruence|reflexivity].
Qed.

Lemma answers_from_last (multiselect : nat → list string)
    (text_input : nat → string) (pre post : list Question) (q : Question)
    (d : list (string * string)) (i : nat) :
  prompt q ∉ prompt <$> post →
  PyDict.get (answers_from d multiselect text_input i (pre ++ q :: post))
             (prompt q)
  = Some (widget_answer multiselect text_input (i + length pre) q).
Proof.
  intros Hp. revert d i. induction pre as [|q0 pre IH]; intros d i.
  - simpl. rewrite (answers_from_other _ _ _ _ _ _ Hp), dict_get_set.
    rewrite Nat.add_0_r.
    destruct (decide (prompt q = prompt q)); [reflexivity|congruence].
  - simpl. rewrite IH. do 2 f_equal. lia.
Qed.

(** X13. The answer the form stores under a prompt is that of the last
    widget whose question carries the prompt: the joined selection of a
    multiple-choice question, the text of an open one. With distinct
    prompts every question is graded on its own widget. *)
Theorem X13_form_answer_lookup (multiselect : nat → list string)
    (text_input : nat → string) (pre post : list Question) (q : Question) :
  prompt q ∉ prompt <$> post →
  PyDict.get (form_answers multiselect text_input (pre ++ q :: post))
             (prompt q)
  = Some (widget_answer multiselect text_input (S (length pre)) q).
Proof.
  intros Hp. unfold form_answers. rewrite answers_from_last by exact Hp.
  reflexivity.
Qed.

(** ** Bounds of the total *)

Lemma grade_bounds (q : Question) (ans : string) (g : Q) :
  grade q ans = Ok g → (0 <= g ∧ g <= 1)%Q.
Proof.
  destruct q as [p corr opts w|p corr w]; simpl; intros H.
  - destruct (mc_grader_total ans corr) as (s & Hs & Hb). congruence.
  - destruct (open_grader_cases ans corr) as [H1|H0].
    + rewrite H1 in H. injection H as <-. split; discriminate.
    + rewrite H0 in H. injection H as <-. split; discriminate.
Qed.

Lemma fold_left_Qplus_le (l l' : list Q) (a b : Q) :
  Forall2 Qle l l' → (a <= b)%Q →
  (fold_left Qplus l a <= fold_left Qplus l' b)%Q.
Proof.
  intros H. revert a b. induction H as [|x y l l' Hxy _ IH]; intros a b Hab.
  - exact Hab.
  - simpl. apply IH. apply Qplus_le_compat; assumption.
Qed.

Lemma graded_bounds (answers : list (string * string)) (q : Question) (s : Q) :
  (0 <= weight q)%Q → graded answers q s → (0 <= s ∧ s <= weight q)%Q.
Proof.
  intros Hw (a & g & _ & Hg & ->). apply grade_bounds in Hg as [Hg0 Hg1].
  split.
  - apply Qmult_le_0_compat; assumption.
  - rewrite <- (Qmult_1_r (weight q)) at 2.
    rewrite !(Qmult_comm (weight q)). apply Qmult_le_compat_r; assumption.
Qed.

(** X14. For weights that are finite numbers, as every weight of this
    model is, and non-negative, with distinct prompts and an answer under
    every prompt: the score computation returns and the total lies between
    0 and the sum of the weights. (A weight cell [inf], which [float]
    accepts, has no value in the model; its product with the grade 0 is no
    number.) *)
Theorem X14_total_bounds (answers : list (string * string))
    (questions : list Question) :
  NoDup (prompt <$> questions) →
  Forall (λ q, is_Some (PyDict.get answers (prompt q))) questions →
  Forall (λ q, (0 <= weight q)%Q) questions →
  ∃ sc, scores answers questions = Ok sc
        ∧ (0 <= Total sc ∧ Total sc <= sum (weight <$> questions))%Q.
Proof.
  intros Hnd Hans Hw.
  destruct (scores_weighted answers questions Hnd Hans) as (ws & _ & Hsc & Hg).
  exists (zip (prompt <$> questions) ws). split; [exact Hsc|].
  assert (length (prompt <$> questions) = length ws) as Hlen.
  { rewrite length_fmap. eapply Forall2_length, Hg. }
  unfold Total, PyDict.values. rewrite snd_zip by lia. unfold sum.
  assert (Forall2 Qle ((λ _, 0%Q) <$> questions) ws
          ∧ Forall2 Qle ws (weight <$> questions)) as [Hlo Hhi].
  { clear Hsc Hlen Hnd Hans. induction Hg as [|q s qs ws' Hq _ IH].
    - split; constructor.
    - inversion Hw as [|? ? Hwq Hws]; subst.
      destruct (IH Hws) as [IHlo IHhi].
      destruct (graded_bounds answers q s Hwq Hq) as [Hs0 Hs1].
      split; rewrite fmap_cons; constructor; assumption. }
  split.
  - assert (fold_left Qplus ((λ _, 0%Q) <$> questions) 0 == 0)%Q as Hz.
    { clear. generalize 0%Q at 2 3 as a. induction questions as [|q qs IH];
        intros a; simpl; [reflexivity|].
      rewrite IH. apply Qplus_0_r. }
    eapply Qle_trans; [|apply fold_left_Qplus_le; [exact Hlo|apply Qle_refl]].
    rewrite Hz. apply Qle_refl.
  - apply fold_left_Qplus_le; [exact Hhi|apply Qle_refl].
Qed.

(** * Properties of the result row *)

(** ** Column labels *)

Lemma chars_app (a b : string) :
  PyStr.chars (a +:+ b) = (PyStr.chars a ++ PyStr.chars b)%list.
Proof.
  induction a as [|c a IH]; [reflexivity|].
  change (String c a +:+ b) with (String c (a +:+ b)). simpl. by rewrite IH.
Qed.

Lemma chars_inj (a b : string) : PyStr.chars a = PyStr.chars b → a = b.
Proof.
  revert b. induction a as [|c a IH]; intros [|c' b]; simpl; try discriminate.
  - reflexivity.
  - intros [= -> H]. by rewrite (IH b H).
Qed.

Lemma str_of_nat_inj (i j : nat) : str_of_nat i = str_of_nat j → i = j.
Proof.
  unfold str_of_nat. intros H. apply Unsigned.to_uint_inj.
  assert (Some (Nat.to_uint i) = Some (Nat.to_uint j)) as [= Hu]; [|exact Hu].
  rewrite <- !NilEmpty.usu. by rewrite H.
Qed.

Lemma answer_column_inj (i j : nat) : answer_column i = answer_column j → i = j.
Proof.
  unfold answer_column. intros H. apply str_of_nat_inj, chars_inj.
  apply (f_equal PyStr.chars) in H. rewrite !chars_app in H.
  apply app_inv_head in H. apply app_inv_tail in H. exact H.
Qed.

Lemma points_column_inj (i j : nat) : points_column i = points_column j → i = j.
Proof.
  unfold points_column. intros H. apply str_of_nat_inj, chars_inj.
  apply (f_equal PyStr.chars) in H. rewrite !chars_app in H.
  apply app_inv_head in H. apply app_inv_tail in H. exact H.
Qed.

Lemma answer_points_distinct (i j : nat) : answer_column i ≠ points_column j.
Proof.
  unfold answer_column, points_column. intros H.
  apply (f_equal PyStr.chars) in H. rewrite !chars_app in H.
  apply app_inv_head in H.
  change (PyStr.chars " Antwort")
    with (PyStr.chars " Antwor" ++ ["t"%char])%list in H.
  change (PyStr.chars " Punkte")
    with (PyStr.chars " Punkt" ++ ["e"%char])%list in H.
  rewrite !app_assoc in H. apply app_inj_tail in H as [_ H]. discriminate H.
Qed.

Lemma column_head (i : nat) :
  ∃ rest rest', answer_column i = String "F" rest
                ∧ points_column i = String "F" rest'.
Proof. eexists _, _. split; reflexivity. Qed.

Lemma column_not_header (i : nat) (k : string) :
  k ∈ ["Name"; "Zeit"; "Total"] →
  k ≠ answer_column i ∧ k ≠ points_column i.
Proof.
  destruct (column_head i) as (rest & rest' & -> & ->). intros Hk.
  repeat (apply elem_of_cons in Hk as [->|Hk]; [split; discriminate|]).
  by apply not_elem_of_nil in Hk.
Qed.

(** ** The row *)

Section ResultRow.

Variable round2 : Q → Q.

Lemma row_from_other (answers : list (string * string))
    (scores : list (string * Q)) (questions : list Question)
    (row : list (string * cell)) (i : nat) (k : string) :
  (∀ j, (i ≤ j)%nat → k ≠ answer_column j ∧ k ≠ points_column j) →
  PyDict.get (row_from round2 row answers scores i questions) k
  = PyDict.get row k.
Proof.
  revert row i. induction questions as [|q qs IH]; intros row i Hk; [reflexivity|].
  simpl. rewrite IH by (intros j Hj; apply Hk; lia).
  destruct (Hk i (le_n i)) as [Ha Hp].
  rewrite !dict_get_set.
  destruct (decide (points_column i = k)); [congruence|].
  destruct (decide (answer_column i = k)); [congruence|reflexivity].
Qed.

Lemma row_from_cells (answers : list (string * string))
    (scores : list (string * Q)) (questions : list Question)
    (row : list (string * cell)) (i j : nat) (q : Question) :
  questions !! j = Some q →
  PyDict.get (row_from round2 row answers scores i questions)
             (answer_column (i + j))
  = Some (Text (get_default answers (prompt q) ""))
  ∧ PyDict.get (row_from round2 row answers scores i questions)
               (points_column (i + j))
    = Some (Number (round2 (get_default scores (prompt q) 0%Q))).
Proof.
  revert row i j. induction questions as [|q0 qs IH]; intros row i j Hj.
  - destruct j; discriminate.
  - destruct j as [|j].
    + injection Hj as ->. rewrite Nat.add_0_r. simpl. split.
      * rewrite row_from_other.
        -- rewrite !dict_get_set.
           destruct (decide (points_column i = answer_column i)) as [He|_].
           ++ symmetry in He. by apply answer_points_distinct in He.
           ++ destruct (decide (answer_column i = answer_column i));
                [reflexivity|congruence].
        -- intros j Hj. split.
           ++ intros He. apply answer_column_inj in He. lia.
           ++ apply answer_points_distinct.
      * rewrite row_from_other.
        -- rewrite dict_get_set.
           destruct (decide (points_column i = points_column i));
             [reflexivity|congruence].
        -- intros j Hj. split.
           ++ intros He. symmetry in He. by apply answer_points_distinct in He.
           ++ intros He. apply points_column_inj in He. lia.
    + simpl in Hj. simpl. replace (i + S j) with (S i + j) by lia.
      apply IH, Hj.
Qed.

Lemma row_from_explicit (answers : list (string * string))
    (scores : list (string * Q)) (questions : list Question)
    (row : list (string * cell)) (i : nat) :
  (∀ j, (i ≤ j)%nat →
        (answer_column j ∉ PyDict.keys row)
        ∧ (points_column j ∉ PyDict.keys row)) →
  row_from round2 row answers scores i questions
  = (row ++ concat (imap (λ j q, row_cells round2 answers scores (i + j) q)
                         questions))%list.
Proof.
  revert row i. induction questions as [|q qs IH]; intros row i Hfresh.
  - simpl. by rewrite app_nil_r.
  - destruct (Hfresh i (le_n i)) as [Ha Hp].
    cbn [row_from]. rewrite (dict_set_fresh row) by exact Ha.
    rewrite dict_set_fresh.
    + rewrite IH.
      * rewrite imap_cons. cbn [concat]. rewrite Nat.add_0_r.
        unfold row_cells at 2. rewrite <- !app_assoc. cbn [app].
        do 4 f_equal. apply imap_ext. intros j x _. simpl. f_equal. lia.
      * intros j Hj. destruct (Hfresh j ltac:(lia)) as [Ha' Hp'].
        unfold PyDict.keys in *. rewrite !fmap_app. cbn [fmap list_fmap fst].
        rewrite !elem_of_app, !list_elem_of_singleton. split.
        -- intros [[H|H]|H].
           ++ contradiction.
           ++ apply answer_column_inj in H. lia.
           ++ by apply answer_points_distinct in H.
        -- intros [[H|H]|H].
           ++ contradiction.
           ++ symmetry in H. by apply answer_points_distinct in H.
           ++ apply points_column_inj in H. lia.
    + unfold PyDict.keys in *. rewrite fmap_app. cbn [fmap list_fmap fst].
      rewrite elem_of_app, list_elem_of_singleton. intros [H|H].
      * contradiction.
      * symmetry in H. by apply answer_points_distinct in H.
Qed.

Lemma concat_imap_pairs {A B : Type} (f : nat → A → list B) (l : list A) :
  (∀ j x, length (f j x) = 2%nat) →
  length (concat (imap f l)) = (2 * length l)%nat.
Proof.
  revert f. induction l as [|x l IH]; intros f Hf; [reflexivity|].
  rewrite imap_cons. cbn [concat length]. rewrite length_app, Hf, IH.
  - lia.
  - intros j y. apply Hf.
Qed.

Lemma row_from_NoDup (answers : list (string * string))
    (scores : list (string * Q)) (questions : list Question)
    (row : list (string * cell)) (i : nat) :
  NoDup (PyDict.keys row) →
  NoDup (PyDict.keys (row_from round2 row answers scores i questions)).
Proof.
  revert row i. induction questions as [|q qs IH]; intros row i Hnd; [exact Hnd|].
  simpl. apply IH. by do 2 apply dict_set_NoDup.
Qed.

(** X15. The row that is saved has the cells Name, Zeit and Total followed
    by an answer cell and a points cell per question, in question order:
    no cell overwrites another, the labels are pairwise distinct, and there
    are 3 + 2n cells for n questions, whatever was answered. *)
Theorem X15_result_row_layout (name zeit : string)
    (answers : list (string * string)) (scores : list (string * Q))
    (questions : list Question) :
  save_result_row round2 name zeit answers scores questions
  = ([("Name", Text name); ("Zeit", Text zeit);
      ("Total", Number (sum (PyDict.values scores)))]
     ++ concat (imap (λ j q, row_cells round2 answers scores (S j) q)
                     questions))%list
  ∧ NoDup (PyDict.keys
             (save_result_row round2 name zeit answers scores questions))
  ∧ length (save_result_row round2 name zeit answers scores questions)
    = (3 + 2 * length questions)%nat.
Proof.
  assert (save_result_row round2 name zeit answers scores questions
          = ([("Name", Text name); ("Zeit", Text zeit);
              ("Total", Number (sum (PyDict.values scores)))]
             ++ concat (imap (λ j q, row_cells round2 answers scores (S j) q)
                             questions))%list) as Hrow.
  { unfold save_result_row. apply row_from_explicit.
    intros j _. split; intros H.
    - by destruct (column_not_header j _ H).
    - by destruct (column_not_header j _ H). }
  split; [exact Hrow|]. split.
  - unfold save_result_row. apply row_from_NoDup.
    repeat (apply NoDup_cons; split;
            [intros H;
             repeat (apply elem_of_cons in H as [H|H]; [discriminate H|]);
             by apply not_elem_of_nil in H|]).
    apply NoDup_nil_2.
  - rewrite Hrow, length_app, concat_imap_pairs by reflexivity.
    reflexivity.
Qed.

End ResultRow.

(** ** From the form to the saved row *)

Lemma form_answers_lookup (multiselect : nat → list string)
    (text_input : nat → string) (questions : list Question)
    (i : nat) (q : Question) :
  NoDup (prompt <$> questions) → questions !! i = Some q →
  PyDict.get (form_answers multiselect text_input questions) (prompt q)
  = Some (widget_answer multiselect text_input (S i) q).
Proof.
  intros Hnd Hq.
  apply list_elem_of_split_length in Hq as (pre & post & -> & ->).
  unfold form_answers. rewrite answers_from_last; [reflexivity|].
  rewrite fmap_app, fmap_cons in Hnd.
  apply NoDup_app in Hnd as (_ & _ & Hnd). by apply NoDup_cons in Hnd as [Hq _].
Qed.

Section Submit.

Variable round2 : Q → Q.

(** X16. Submitting a form over questions with distinct prompts never
    raises, and the saved row shows for each question what was entered in
    its own widget and the rounded product of its weight and the grade of
    that entry, after the name and the total of the score mapping. *)
Theorem X16_submit_row (name zeit : string) (multiselect : nat → list string)
    (text_input : nat → string) (questions : list Question) :
  NoDup (prompt <$> questions) →
  ∃ row sc,
    submit round2 name zeit multiselect text_input questions = Ok row
    ∧ scores (form_answers multiselect text_input questions) questions = Ok sc
    ∧ PyDict.get row "Name" = Some (Text name)
    ∧ PyDict.get row "Total" = Some (Number (Total sc))
    ∧ ∀ i q, questions !! i = Some q →
        ∃ g, grade q (widget_answer multiselect text_input (S i) q) = Ok g
             ∧ PyDict.get row (answer_column (S i))
               = Some (Text (widget_answer multiselect text_input (S i) q))
             ∧ PyDict.get row (points_column (S i))
               = Some (Number (round2 (weight q * g))).
Proof.
  intros Hnd.
  set (answers := form_answers multiselect text_input questions).
  destruct (scores_weighted answers questions Hnd
              (form_answers_complete multiselect text_input questions))
    as (ws & _ & Hsc & Hg).
  exists (save_result_row round2 name zeit answers
            (zip (prompt <$> questions) ws) questions),
         (zip (prompt <$> questions) ws).
  split; [unfold submit; fold answers; by rewrite Hsc|].
  split; [exact Hsc|].
  assert (∀ k, k ∈ ["Name"; "Zeit"; "Total"] →
            ∀ j, (1 ≤ j)%nat → k ≠ answer_column j ∧ k ≠ points_column j)
    as Hhead.
  { intros k Hk j _. apply column_not_header, Hk. }
  split; [|split].
  - unfold save_result_row. rewrite row_from_other; [reflexivity|].
    apply Hhead. by left.
  - unfold save_result_row. rewrite row_from_other; [reflexivity|].
    apply Hhead. right. right. by left.
  - intros i q Hq.
    destruct (Forall2_lookup_l _ _ _ _ _ Hg Hq) as (s & Hs & a & g & Ha & Hgr & ->).
    unfold answers in Ha.
    rewrite (form_answers_lookup _ _ _ _ _ Hnd Hq) in Ha. injection Ha as <-.
    exists g. split; [exact Hgr|].
    unfold save_result_row.
    destruct (row_from_cells round2 answers (zip (prompt <$> questions) ws)
                questions
                [("Name", Text name); ("Zeit", Text zeit);
                 ("Total", Number (sum (PyDict.values
                                          (zip (prompt <$> questions) ws))))]
                1 i q Hq) as [Hans Hpts].
    change (1 + i)%nat with (S i) in Hans, Hpts. split.
    + rewrite Hans. unfold get_default, answers.
      by rewrite (form_answers_lookup _ _ _ _ _ Hnd Hq).
    + rewrite Hpts. unfold get_default.
      rewrite (dict_get_zip (prompt <$> questions) ws i (prompt q)
                 (weight q * g)%Q Hnd); [reflexivity| |exact Hs].
      rewrite list_lookup_fmap, Hq. reflexivity.
Qed.

End Submit.

(** ** The stored scores *)

Lemma sample_round2_hundredths : hundredths sample_round2.
Proof.
  intros x. unfold sample_round2. cbv zeta.
  destruct (_ ?= _)%Z; eexists; reflexivity.
Qed.

(** C6. For a quiz, whose prompts are pairwise distinct, and a submission
    that holds an answer under every prompt, as the one the form collects
    does: the scores mapping holds under each question's prompt its weight
    times the grade of its answer; the points cell of the saved row holds
    that weighted score rounded to two decimals; and the total, in the
    mapping and in the row, is the sum of the weighted scores over all
    questions, neither rounded nor normalised. *)
Theorem C6_weighted_total (round2 : Q → Q) (name zeit : string)
    (questions : list Question) :
  NoDup (prompt <$> questions) →
  (∀ answers,
     Forall (λ q, is_Some (PyDict.get answers (prompt q))) questions →
     weighted_scores_stored round2 name zeit answers questions)
  ∧ (∀ multiselect text_input,
       weighted_scores_stored round2 name zeit
         (form_answers multiselect text_input questions) questions).
Proof.
  intros Hnd.
  assert (∀ answers,
            Forall (λ q, is_Some (PyDict.get answers (prompt q))) questions →
            weighted_scores_stored round2 name zeit answers questions) as Hgen.
  { intros answers Hans.
    destruct (proj1 (scores_weighted_total questions Hnd) answers Hans)
      as (sc & ws & Hsc & Hg & Hget & Htot).
    exists sc, ws. split; [exact Hsc|]. split; [exact Hg|].
    split; [|split; [exact Htot|]].
    - intros i q s Hq Hs. split; [exact (Hget i q s Hq Hs)|].
      unfold save_result_row.
      destruct (row_from_cells round2 answers sc questions
                  [("Name", Text name); ("Zeit", Text zeit);
                   ("Total", Number (sum (PyDict.values sc)))]
                  1 i q Hq) as [_ Hpts].
      change (1 + i)%nat with (S i) in Hpts. rewrite Hpts.
      unfold get_default. rewrite (Hget i q s Hq Hs). reflexivity.
    - unfold save_result_row. rewrite row_from_other.
      + rewrite <- Htot. reflexivity.
      + intros j _. apply column_not_header. right. right. by left. }
  split; [exact Hgen|].
  intros multiselect text_input. apply Hgen, form_answers_complete.
Qed.

Lemma C6_witness :
  NoDup (prompt <$> two_questions)
  ∧ Forall (λ q, is_Some (PyDict.get two_answers (prompt q))) two_questions
  ∧ weighted_scores_stored sample_round2 "Ada" "2024-01-01T00:00:00"
      two_answers two_questions.
Proof.
  assert (NoDup (prompt <$> two_questions)) as Hnd.
  { apply NoDup_cons. split.
    - intros Hin. apply list_elem_of_singleton in Hin. discriminate Hin.
    - apply NoDup_singleton. }
  assert (Forall (λ q, is_Some (PyDict.get two_answers (prompt q)))
            two_questions) as Hans.
  { repeat constructor; eexists; reflexivity. }
  split; [exact Hnd|]. split; [exact Hans|].
  exact (proj1 (C6_weighted_total sample_round2 "Ada" "2024-01-01T00:00:00"
                  two_questions Hnd) two_answers Hans).
Defined.

(** Weights 1 and 2 with grades 1/2 and 1: the row holds the points 0.5 and
    2 and the total 5/2. *)
Example two_questions_row :
  ∃ sc p1 p2 t,
    scores two_answers two_questions = Ok sc
    ∧ PyDict.get (save_result_row sample_round2 "Ada" "2024-01-01T00:00:00"
                    two_answers sc two_questions) "F1 Punkte"
      = Some (Number p1)
    ∧ PyDict.get (save_result_row sample_round2 "Ada" "2024-01-01T00:00:00"
                    two_answers sc two_questions) "F2 Punkte"
      = Some (Number p2)
    ∧ PyDict.get (save_result_row sample_round2 "Ada" "2024-01-01T00:00:00"
                    two_answers sc two_questions) "Total"
      = Some (Number t)
    ∧ (p1 == 1 # 2)%Q ∧ (p2 == 2)%Q ∧ (t == 5 # 2)%Q.
Proof.
  do 4 eexists. split; [vm_compute; reflexivity|].
  split; [vm_compute; reflexivity|]. split; [vm_compute; reflexivity|].
  split; [vm_compute; reflexivity|]. repeat split.
Qed.

(** One correct label of three ticked, weight 1: the weighted score is 1/3,
    and no rounding to hundredths stores 1/3 in the row. *)
Lemma C6_counterexample :
  ¬ ∃ round2, hundredths round2
              ∧ stored_scores_are_products round2 thirds_answer thirds_question.
Proof.
  intros (round2 & Hr & sc & Hsc & H).
  destruct (H 0%nat _ eq_refl) as (a & g & x & Ha & Hg & Hx & Heq).
  vm_compute in Ha. injection Ha as <-.
  vm_compute in Hg. injection Hg as <-.
  unfold save_result_row in Hx.
  destruct (row_from_cells round2 thirds_answer sc thirds_question
              [("Name", Text ""); ("Zeit", Text "");
               ("Total", Number (sum (PyDict.values sc)))]
              1 0 _ eq_refl) as [_ Hpts].
  change (1 + 0)%nat with 1%nat in Hpts. rewrite Hpts in Hx.
  injection Hx as <-.
  destruct (Hr (get_default sc
                  (prompt (Question_mc "Letters?" ["A"; "B"; "C"]
                             ["A"; "B"; "C"] 1)) 0%Q)) as [k Hk].
  rewrite Hk in Heq. unfold Qeq in Heq. simpl in Heq. lia.
Qed.

Example thirds_score :
  scores thirds_answer thirds_question = Ok [("Letters?", 1 * (1 # 3))%Q].
Proof. vm_compute. reflexivity. Qed.

(** * From the table to the grade *)

Lemma parsed_mc_clean (py : Runtime)
    (row : gmap string string) (p : string) (corr opts : list string) (w : Q) :
  row_question py row = Ok (Question_mc p corr opts w) →
  Forall clean_label opts ∧ Forall clean_label corr.
Proof.
  intros H.
  apply row_question_inv in H as (typ & frage & richtige & w' & _ & _ & _ & _ & H).
  destruct (decide _); [|discriminate].
  destruct H as (moegl & corr' & _ & [= -> -> -> ->] & H).
  split; [apply labels_clean|].
  destruct (py_isdigit py _).
  - destruct H as (idx & _ & ->).
    pose proof (labels_clean moegl) as Hopts.
    rewrite Forall_forall in Hopts. apply Forall_forall.
    intros o Ho. apply Hopts, (select_subseteq _ _ _ Ho).
  - subst corr'. apply labels_clean.
Qed.

Lemma correct_set_remove_dups (corr : list string) :
  list_to_set (norm <$> remove_dups corr) = correct_set corr.
Proof.
  unfold correct_set. apply leibniz_equiv. intros x.
  rewrite !elem_of_list_to_set, !list_elem_of_fmap.
  split; intros (c & -> & Hc); exists c; (split; [reflexivity|]);
    by apply elem_of_remove_dups.
Qed.

Lemma correct_set_nonempty (corr : list string) :
  corr ≠ [] → correct_set corr ≠ ∅.
Proof.
  destruct corr as [|c corr]; [congruence|]. intros _.
  unfold correct_set. rewrite fmap_cons. simpl.
  intros H. apply (not_elem_of_empty (C:=gset string) (norm c)).
  rewrite <- H. apply elem_of_union_l, elem_of_singleton. reflexivity.
Qed.

(** X18. Whether a multiple-choice question as the parser returns it can be
    answered in full through the form, whose selections are lists of its
    options. When it has a correct label, no correct label holds ['|'] and
    every correct label is an option, the selection of exactly the correct
    labels earns the grade 1. When no option holds ['|'] and some correct
    label matches no option after stripping and lowercasing, as a literal
    answer may, no selection of options earns the grade 1. *)
Theorem X18_parsed_question_answerable (py : Runtime)
    (row : gmap string string) (p : string) (corr opts : list string)
    (w : Q) :
  row_question py row = Ok (Question_mc p corr opts w) →
  (corr ≠ [] → Forall (λ c, ¬ has_char "|"%char c) corr → corr ⊆ opts →
   ∃ sel, NoDup sel ∧ sel ⊆ opts ∧ (∀ x, x ∈ sel ↔ x ∈ corr)
          ∧ returns (grade (Question_mc p corr opts w) (PyStr.join "|" sel)) 1)
  ∧ (Forall (λ o, ¬ has_char "|"%char o) opts →
     (∃ c, c ∈ corr ∧ ∀ o, o ∈ opts → norm o ≠ norm c) →
     ∀ sel, sel ⊆ opts →
       ¬ returns (grade (Question_mc p corr opts w) (PyStr.join "|" sel)) 1).
Proof.
  intros Hq. destruct (parsed_mc_clean _ _ _ _ _ _ Hq) as [Hopts Hclean].
  rewrite Forall_forall in Hopts, Hclean. split.
  - intros Hne Hbar Hsub. rewrite Forall_forall in Hbar.
    exists (remove_dups corr).
    split; [apply NoDup_remove_dups|]. split.
    { intros x Hx. apply Hsub. by apply elem_of_remove_dups. }
    split; [intros x; apply elem_of_remove_dups|].
    simpl. apply exact_full_credit; [|by apply correct_set_nonempty].
    rewrite user_set_join; [apply correct_set_remove_dups|].
    apply Forall_forall. intros c Hc. rewrite elem_of_remove_dups in Hc.
    split; [apply (Hclean c Hc)|apply (Hbar c Hc)].
  - intros Hbar (c & Hc & Hno) sel Hsel Hone. rewrite Forall_forall in Hbar.
    simpl in Hone. apply full_credit_exact in Hone as [Hset _].
    rewrite user_set_join in Hset.
    + assert (norm c ∈ (list_to_set (norm <$> sel) : gset string)) as Hin.
      { rewrite Hset. unfold correct_set.
        apply elem_of_list_to_set, list_elem_of_fmap. by exists c. }
      apply elem_of_list_to_set, list_elem_of_fmap in Hin as (o & Ho & Hin).
      apply (Hno o); [apply Hsel, Hin|congruence].
    + apply Forall_forall. intros o Ho. apply Hsel in Ho.
      split; [apply (Hopts o Ho)|apply (Hbar o Ho)].
Qed.

(** * The further properties on sample inputs *)

Lemma X4_witness :
  Forall (λ x, x ≠ "" ∧ ¬ has_char "|"%char x) ["Red"; "Blue"]
  ∧ PyStr.split "|"%char (PyStr.join "|" ["Red"; "Blue"]) = ["Red"; "Blue"]
  ∧ user_set (PyStr.join "|" ["Red"; "Blue"])
    = list_to_set (norm <$> ["Red"; "Blue"]).
Proof.
  assert (Forall (λ x, x ≠ "" ∧ ¬ has_char "|"%char x) ["Red"; "Blue"]) as Hsel
    by plain_labels.
  split; [exact Hsel|].
  destruct (X4_selection_round_trip ["Red"; "Blue"] Hsel) as (Hsplit & _ & Hset).
  split; [apply Hsplit; discriminate|exact Hset].
Defined.

Lemma X5_witness :
  ["Red"; "Blue"] ≡ₚ ["Blue"; "Red"]
  ∧ Forall (λ x, x ≠ "" ∧ ¬ has_char "|"%char x) ["Red"; "Blue"]
  ∧ mc_grader (PyStr.join "|" ["Red"; "Blue"]) ["Red"; "Green"; "Blue"]
    = mc_grader (PyStr.join "|" ["Blue"; "Red"]) ["Red"; "Green"; "Blue"].
Proof.
  assert (["Red"; "Blue"] ≡ₚ ["Blue"; "Red"]) as Hp by apply perm_swap.
  assert (Forall (λ x, x ≠ "" ∧ ¬ has_char "|"%char x) ["Red"; "Blue"]) as Hsel
    by plain_labels.
  split; [exact Hp|]. split; [exact Hsel|].
  exact (X5_selection_order_irrelevant _ _ _ Hp Hsel).
Defined.

Lemma X6_witness :
  ["Red"; "Blue"] ≠ []
  ∧ Forall (λ x, x ≠ "" ∧ ¬ has_char "|"%char x) ["Red"; "Blue"]
  ∧ ["Blue"; "Red"] ≡ₚ ["Red"; "Blue"]
  ∧ returns (mc_grader (PyStr.join "|" ["Blue"; "Red"]) ["Red"; "Blue"]) 1.
Proof.
  assert (["Red"; "Blue"] ≠ []) as Hne by discriminate.
  assert (Forall (λ x, x ≠ "" ∧ ¬ has_char "|"%char x) ["Red"; "Blue"]) as Hc
    by plain_labels.
  assert (["Blue"; "Red"] ≡ₚ ["Red"; "Blue"]) as Hp by apply perm_swap.
  split; [exact Hne|]. split; [exact Hc|]. split; [exact Hp|].
  exact (X6_exact_selection_full_credit _ _ Hne Hc Hp).
Defined.

Lemma X7_witness :
  "Red|Blue" ∈ ["Red|Blue"]
  ∧ has_char "|"%char "Red|Blue"
  ∧ ¬ returns (mc_grader "Red|Blue" ["Red|Blue"]) 1.
Proof.
  assert ("Red|Blue" ∈ ["Red|Blue"]) as Hin by apply list_elem_of_here.
  assert (has_char "|"%char "Red|Blue") as Hbar.
  { unfold has_char. simpl. do 3 apply list_elem_of_further.
    apply list_elem_of_here. }
  split; [exact Hin|]. split; [exact Hbar|].
  exact (X7_bar_in_label_blocks_full_credit _ _ _ Hin Hbar).
Defined.

Lemma X8_witness :
  row_question sample_python colour_row
  = Ok (Question_mc "Colour?" ["Red"; "Blue"] ["Red"; "Green"; "Blue"] 1)
  ∧ Forall clean_label ["Red"; "Green"; "Blue"]
  ∧ Forall clean_label ["Red"; "Blue"]
  ∧ ["Red"; "Blue"] ⊆ ["Red"; "Green"; "Blue"].
Proof.
  assert (row_question sample_python colour_row
          = Ok (Question_mc "Colour?" ["Red"; "Blue"]
                  ["Red"; "Green"; "Blue"] 1)) as Hq by reflexivity.
  split; [exact Hq|].
  destruct (X8_parsed_question_normalised sample_python colour_row _ Hq)
    as (_ & Hopts & Hcorr & Hsub).
  split; [exact Hopts|]. split; [exact Hcorr|].
  apply (Hsub "1;3"); reflexivity.
Defined.

Lemma X9_witness :
  Forall2 same_fields
    (iterrows {| columns := ["Frage"; "Typ"; "Antwortmöglichkeiten";
                             "Richtige Antworten"];
                 data := [["Capital?"; "open"; ""; "Paris"]] |})
    (iterrows {| columns := ["Note"; "Typ"; "Frage"; "Richtige Antworten";
                             "Antwortmöglichkeiten"];
                 data := [["easy"; "open"; "Capital?"; "Paris"; ""]] |})
  ∧ _df_to_questions sample_python
      {| columns := ["Frage"; "Typ"; "Antwortmöglichkeiten";
                     "Richtige Antworten"];
         data := [["Capital?"; "open"; ""; "Paris"]] |}
    = _df_to_questions sample_python
        {| columns := ["Note"; "Typ"; "Frage"; "Richtige Antworten";
                       "Antwortmöglichkeiten"];
           data := [["easy"; "open"; "Capital?"; "Paris"; ""]] |}.
Proof.
  assert (Forall2 same_fields
            (iterrows {| columns := ["Frage"; "Typ"; "Antwortmöglichkeiten";
                                     "Richtige Antworten"];
                         data := [["Capital?"; "open"; ""; "Paris"]] |})
            (iterrows {| columns := ["Note"; "Typ"; "Frage";
                                     "Richtige Antworten";
                                     "Antwortmöglichkeiten"];
                         data := [["easy"; "open"; "Capital?"; "Paris"; ""]] |}))
    as Hsame.
  { constructor; [|constructor]. intros k Hk. unfold required in Hk.
    repeat (apply elem_of_cons in Hk as [->|Hk]; [reflexivity|]).
    by apply not_elem_of_nil in Hk. }
  split; [exact Hsame|].
  exact (X9_other_columns_ignored sample_python _ _ Hsame).
Defined.

Lemma X11_witness :
  well_formed superscript_table
  ∧ NoDup (PyStr.strip <$> columns superscript_table)
  ∧ load_questions sample_python required superscript_table
    = Raise (ValueError_int "²")
  ∧ py_int sample_python "²" = None.
Proof.
  assert (well_formed superscript_table) as Hwf.
  { repeat (apply Forall_cons; split; [reflexivity|]). apply Forall_nil_2. }
  assert (NoDup (PyStr.strip <$> columns superscript_table)) as Hnd.
  { apply (bool_decide_unpack _). vm_compute. exact I. }
  assert (load_questions sample_python required superscript_table
          = Raise (ValueError_int "²")) as Hload by (vm_compute; reflexivity).
  split; [exact Hwf|]. split; [exact Hnd|]. split; [exact Hload|].
  destruct (X11_load_errors sample_python required _ _ Hwf Hnd Hload)
    as [(msg & He & _)|[(s & He & _)|(seg & He & Hseg)]];
    [discriminate He|discriminate He|].
  injection He as <-. exact Hseg.
Defined.

Lemma X12_witness :
  scores same_prompt_answers same_prompt_questions = Ok [("Capital?", 2 * 1)%Q]
  ∧ PyDict.get [("Capital?", 2 * 1)%Q] "Capital?" = Some (2 * 1)%Q.
Proof.
  assert (scores same_prompt_answers same_prompt_questions
          = Ok [("Capital?", 2 * 1)%Q]) as Hsc by reflexivity.
  split; [exact Hsc|].
  destruct (X12_scores_last_question_wins _ _ _ Hsc) as (_ & _ & Hlast).
  apply (Hlast [Question_open "Capital?" "Paris" 1]
               (Question_open "Capital?" "Paris" 2) []).
  - reflexivity.
  - apply not_elem_of_nil.
  - reflexivity.
Defined.

Lemma X13_witness :
  (prompt (Question_open "Capital?" "Paris" 2)
     ∉ prompt <$> @nil Question)
  ∧ PyDict.get
      (form_answers (λ _, []) (λ i, if decide (i = 1%nat) then "Rome" else "Paris")
         [Question_open "Capital?" "Paris" 1;
          Question_open "Capital?" "Paris" 2])
      "Capital?"
    = Some "Paris".
Proof.
  assert (prompt (Question_open "Capital?" "Paris" 2) ∉ prompt <$> @nil Question)
    as Hp by apply not_elem_of_nil.
  split; [exact Hp|].
  exact (X13_form_answer_lookup (λ _, [])
           (λ i, if decide (i = 1%nat) then "Rome" else "Paris")
           [Question_open "Capital?" "Paris" 1]
           [] (Question_open "Capital?" "Paris" 2) Hp).
Defined.

Lemma X14_witness :
  NoDup (prompt <$> two_questions)
  ∧ Forall (λ q, is_Some (PyDict.get two_answers (prompt q))) two_questions
  ∧ Forall (λ q, (0 <= weight q)%Q) two_questions
  ∧ ∃ sc, scores two_answers two_questions = Ok sc
          ∧ (0 <= Total sc ∧ Total sc <= sum (weight <$> two_questions))%Q.
Proof.
  assert (NoDup (prompt <$> two_questions)) as Hnd.
  { apply NoDup_cons. split.
    - intros Hin. apply list_elem_of_singleton in Hin. discriminate Hin.
    - apply NoDup_singleton. }
  assert (Forall (λ q, is_Some (PyDict.get two_answers (prompt q)))
            two_questions) as Hans.
  { repeat constructor; eexists; reflexivity. }
  assert (Forall (λ q, (0 <= weight q)%Q) two_questions) as Hw.
  { repeat constructor; discriminate. }
  split; [exact Hnd|]. split; [exact Hans|]. split; [exact Hw|].
  exact (X14_total_bounds two_answers two_questions Hnd Hans Hw).
Defined.

Lemma X16_witness :
  NoDup (prompt <$> two_questions)
  ∧ ∃ row sc,
      submit (λ x, x) "Ada" "2024-01-01T00:00:00" (λ _, ["A"]) (λ _, "paris")
        two_questions = Ok row
      ∧ scores (form_answers (λ _, ["A"]) (λ _, "paris") two_questions)
          two_questions = Ok sc
      ∧ PyDict.get row "Name" = Some (Text "Ada")
      ∧ PyDict.get row "Total" = Some (Number (Total sc)).
Proof.
  assert (NoDup (prompt <$> two_questions)) as Hnd.
  { apply NoDup_cons. split.
    - intros Hin. apply list_elem_of_singleton in Hin. discriminate Hin.
    - apply NoDup_singleton. }
  split; [exact Hnd|].
  destruct (X16_submit_row (λ x, x) "Ada" "2024-01-01T00:00:00"
              (λ _, ["A"]) (λ _, "paris") two_questions Hnd)
    as (row & sc & Hrow & Hsc & Hname & Htotal & _).
  exists row, sc. auto.
Defined.

Lemma X18_witness :
  (row_question sample_python colour_row
   = Ok (Question_mc "Colour?" ["Red"; "Blue"] ["Red"; "Green"; "Blue"] 1)
   ∧ ∃ sel, NoDup sel ∧ sel ⊆ ["Red"; "Green"; "Blue"]
            ∧ (∀ x, x ∈ sel ↔ x ∈ ["Red"; "Blue"])
            ∧ returns
                (grade (Question_mc "Colour?" ["Red"; "Blue"]
                          ["Red"; "Green"; "Blue"] 1)
                   (PyStr.join "|" sel))
                1)
  ∧ (row_question sample_python literal_row
     = Ok (Question_mc "Colour?" ["Blue"; "red"] ["Red"; "Green"] 1)
     ∧ ∀ sel, sel ⊆ ["Red"; "Green"] →
         ¬ returns
             (grade (Question_mc "Colour?" ["Blue"; "red"] ["Red"; "Green"] 1)
                (PyStr.join "|" sel))
             1).
Proof.
  assert (row_question sample_python colour_row
          = Ok (Question_mc "Colour?" ["Red"; "Blue"]
                  ["Red"; "Green"; "Blue"] 1)) as Hq by reflexivity.
  assert (row_question sample_python literal_row
          = Ok (Question_mc "Colour?" ["Blue"; "red"] ["Red"; "Green"] 1))
    as Hq' by reflexivity.
  split.
  - split; [exact Hq|].
    apply (proj1 (X18_parsed_question_answerable sample_python colour_row
                    _ _ _ _ Hq)).
    + discriminate.
    + repeat (apply Forall_cons; split; [no_such_char|]). apply Forall_nil_2.
    + apply (bool_decide_unpack _). vm_compute. exact I.
  - split; [exact Hq'|].
    apply (proj2 (X18_parsed_question_answerable sample_python literal_row
                    _ _ _ _ Hq')).
    + repeat (apply Forall_cons; split; [no_such_char|]). apply Forall_nil_2.
    + exists "Blue". split; [apply list_elem_of_here|].
      intros o Ho.
      repeat (apply elem_of_cons in Ho as [->|Ho]; [discriminate|]).
      by apply not_elem_of_nil in Ho.
Defined.
